(** * node-serialport: the mock binding and the port controller

    A shallow embedding of the JavaScript sources

    - [MockBindings] (the in-memory reference binding), and
    - [SerialPort]   (the duplex-stream port controller),

    followed by the properties of the binding contract that the
    specification states about them.

    Conventions of the embedding.

    - JavaScript values that flow through the code are the type [value];
      option bags are finite maps from property names to values.
    - Objects that the code shares by reference (registry entries, Buffers)
      live in an explicit store and are named by their index in it.
    - A function that takes a completion callback returns, next to the new
      state, the calls it made before returning ([now]) and the calls it
      handed to [process.nextTick] ([later]).
    - Functions installed by user code (callbacks, event listeners) are the
      environment: they are named by a number, and calling one is recorded
      as an effect.  They are taken not to call back into the port while
      they are being notified. *)

From Stdlib Require Import ZArith Strings.Byte.
From stdpp Require Import base option list gmap strings pretty.

Local Open Scope Z_scope.

(** ** JavaScript values *)

(** One record of [list]'s result; a metadata field that is not known is
    [undefined] ([None]). *)
Record PortInfo := mkInfo {
  comName : string;
  manufacturer : option string;
  serialNumber : option string;
  pnpId : option string;
  locationId : option string;
  vendorId : option string;
  productId : option string
}.

(** Numbers are the integers the code handles (handles, baud rates, byte
    counts) and [NaN], the number that is falsy without being zero.  [VError name message] is an [Error] object, [VObj] any other
    object or function, of which only the identity matters. *)
Inductive value :=
  | VUndefined
  | VNull
  | VBool (b : bool)
  | VNum (n : Z)
  | VNaN
  | VStr (s : string)
  | VError (name message : string)
  | VObj (id : nat)
  | VInfos (l : list PortInfo).

#[global] Instance PortInfo_eq_dec : EqDecision PortInfo.
Proof. solve_decision. Defined.
#[global] Instance value_eq_dec : EqDecision value.
Proof. solve_decision. Defined.

Abbreviation object := (gmap string value).

(** [o.k]: a property that is absent reads as [undefined]. *)
Definition get (o : object) (k : string) : value := default VUndefined (o !! k).

(** ToBoolean. *)
Definition truthy (v : value) : bool :=
  match v with
  | VUndefined | VNull | VNaN => false
  | VBool b => b
  | VNum n => negb (n =? 0)
  | VStr s => negb (String.eqb s EmptyString)
  | VError _ _ | VObj _ | VInfos _ => true
  end.

(** [typeof v === 'number'] *)
Definition is_number (v : value) : bool :=
  match v with VNum _ | VNaN => true | _ => false end.

(** [assign({}, defaults, options)]: own properties of [options] (also those
    whose value is [undefined]) win over [defaults]; an [undefined] source is
    skipped. *)
Definition assign (defaults : object) (options : option object) : object :=
  match options with
  | Some o => o ∪ defaults
  | None => defaults
  end.

(** [x || y] on strings, as used for default messages. *)
Definition or_default (message : option string) (dflt : string) : string :=
  match message with
  | Some s => if String.eqb s EmptyString then dflt else s
  | None => dflt
  end.

(** ToString, for messages built with [+]. *)
Definition to_string (v : value) : string :=
  match v with
  | VUndefined => "undefined"
  | VNull => "null"
  | VBool true => "true"
  | VBool false => "false"
  | VNum n => pretty n
  | VNaN => "NaN"
  | VStr s => s
  | VError name message => name +:+ ": " +:+ message
  | VObj _ => "[object Object]"
  | VInfos l => String.concat "," ((λ _, "[object Object]") <$> l)
  end.

(** [s] between double quotes. *)
Definition quoted (s : string) : string :=
  String (Ascii.ascii_of_nat 34) (s +:+ String (Ascii.ascii_of_nat 34) EmptyString).

Definition Error (message : string) : value := VError "Error" message.
Definition TypeError (message : string) : value := VError "TypeError" message.

(** The properties every plain object inherits from [Object.prototype]: a
    lookup [o[k]] of such a name finds a function (or, for [__proto__], the
    prototype) also when [o] has no property [k] of its own. *)
Definition inherited (k : string) : bool :=
  bool_decide (k ∈ ["constructor"; "__defineGetter__"; "__defineSetter__";
                    "hasOwnProperty"; "__lookupGetter__"; "__lookupSetter__";
                    "isPrototypeOf"; "propertyIsEnumerable"; "toString";
                    "valueOf"; "__proto__"; "toLocaleString"]).

(** ** The mock binding *)

Module Mock.

Definition MissingPortError (message : option string) : value :=
  VError "MissingPortError"
    (or_default message
       "Port does not exist - please call hardware.createPort(path) first").

Section WithCallbacks.

(** The binding stores and calls the callbacks it is given and does nothing
    else with them. *)
Context {CB : Type}.

(** A registry entry, the object [createPort] builds.  [lastWrite] names a
    Buffer in the store; [openOpt] is [undefined] until the first open. *)
Record port := mkPort {
  data : list byte;
  lastWrite : option nat;
  poller : option CB;
  info : PortInfo;
  port_fds : list Z;
  openOpt : option object
}.

Definition set_port_fds (p : port) (l : list Z) : port :=
  mkPort (data p) (lastWrite p) (poller p) (info p) l (openOpt p).
Definition set_openOpt (p : port) (o : object) : port :=
  mkPort (data p) (lastWrite p) (poller p) (info p) (port_fds p) (Some o).
Definition set_lastWrite (p : port) (b : nat) : port :=
  mkPort (data p) (Some b) (poller p) (info p) (port_fds p) (openOpt p).
Definition set_data (p : port) (d : list byte) : port :=
  mkPort d (lastWrite p) (poller p) (info p) (port_fds p) (openOpt p).
Definition set_poller (p : port) (c : CB) : port :=
  mkPort (data p) (lastWrite p) (Some c) (info p) (port_fds p) (openOpt p).

(** [this.nextFd], [this.fds], [this.ports], and the part of the heap they
    reach: [fds] and [ports] hold references into [objs], so that one entry
    opened twice is one object; [bufs] holds the contents of the Buffers. *)
Record state := mkState {
  nextFd : Z;
  fds : gmap Z nat;
  ports : gmap string nat;
  objs : list port;
  bufs : list (list byte)
}.

(** What a call of a binding function did: it returned, having called [now]
    in order before returning and having queued [later] with
    [process.nextTick]; or it threw. *)
Inductive outcome :=
  | Returned (m : state) (now : list (CB * list value))
             (later : list (option CB * list value))
  | Thrown (e : value).

(** [callLater(cb, args...)]: the test [callback &&] is made in the tick, so
    an [undefined] callback is queued as well. *)
Definition callLater (m : state) (cb : option CB) (args : list value) : outcome :=
  Returned m [] [(cb, args)].

(** [cb(args...)] *)
Definition call (m : state) (cb : option CB) (args : list value) : outcome :=
  match cb with
  | Some f => Returned m [(f, args)] []
  | None => Thrown (TypeError "cb is not a function")
  end.

(** [new MockBindings()] *)
Definition new : state := mkState 0 ∅ ∅ [] [].

Definition reset (m : state) : state :=
  mkState 0 ∅ ∅ (objs m) (bufs m).

(** [delete this.fds[this.ports[path].fd]] removes the key ["undefined"]
    (an entry has no [fd] property), which [fds] never holds: no effect. *)
Definition createPort (m : state) (path : string) : state :=
  let fresh :=
    mkPort [] None None (mkInfo path (Some "The J5 Robotics Company") None None None None None)
           [] None in
  mkState (nextFd m) (fds m) (<[path := length (objs m)]> (ports m))
          (objs m ++ [fresh]) (bufs m).

(** The entry and the reference it was read through: the own properties of
    [this.ports].  What a lookup inherits from [Object.prototype] is told by
    [inherited] and handled where it matters ([open]); the properties assume
    [plain], since an entry registered under [__proto__] would become the
    prototype of [this.ports]. *)
Definition getPortByPath (m : state) (path : string) : option (nat * port) :=
  r ← ports m !! path; p ← objs m !! r; Some (r, p).

(** [this.fds[fd]]: the table is written under handle numbers only, so a
    value that is not a number finds nothing.  (A string that spells a
    handle number would find it; handles are numbers in the binding
    contract.) *)
Definition getPortByFD (m : state) (fd : value) : option (nat * port) :=
  match fd with
  | VNum n => r ← fds m !! n; p ← objs m !! r; Some (r, p)
  | _ => None
  end.

Definition set_obj (m : state) (r : nat) (p : port) : state :=
  mkState (nextFd m) (fds m) (ports m) (<[r := p]> (objs m)) (bufs m).

(** [port.fds.length > 0 && port.openOpt.lock], as the condition of an [if];
    [None] when reading [lock] off an [undefined] [openOpt] throws. *)
Definition lock_held (p : port) : option bool :=
  match port_fds p with
  | [] => Some false
  | _ :: _ =>
    match openOpt p with
    | Some held => Some (truthy (get held "lock"))
    | None => None
    end
  end.

Definition open (m : state) (path : string) (opt : object) (cb : option CB) : outcome :=
  match getPortByPath m path with
  | None =>
    (* [this.ports[path]] of a name that is inherited is a function or
       object without [fds], and [port.fds.length] throws *)
    if inherited path
    then Thrown (TypeError "Cannot read property 'length' of undefined")
    else call m cb [MissingPortError (Some path)]
  | Some (r, p) =>
    match lock_held p with
    | None => Thrown (TypeError "Cannot read property 'lock' of undefined")
    | Some true => call m cb [Error "port is locked cannot open"]
    | Some false =>
      let fd := nextFd m in
      let p' := set_port_fds (set_openOpt p opt) (port_fds p ++ [fd]) in
      callLater (mkState (fd + 1) (<[fd := r]> (fds m)) (ports m)
                         (<[r := p']> (objs m)) (bufs m))
                cb [VNull; VNum fd]
    end
  end.

Definition close (m : state) (fd : value) (cb : option CB) : outcome :=
  match getPortByFD m fd, fd with
  | Some (r, p), VNum n =>
    let p' := set_port_fds p (filter (λ item, item ≠ n) (port_fds p)) in
    callLater (mkState (nextFd m) (delete n (fds m)) (ports m)
                       (<[r := p']> (objs m)) (bufs m))
              cb [VNull]
  | _, _ => callLater m cb [Error (to_string fd +:+ " fd is already closed")]
  end.

Definition update (m : state) (fd : value) (opt : object) (cb : option CB) : outcome :=
  if negb (truthy (get opt "baudRate")) then Thrown (Error "Missing baudRate")
  else
    match getPortByFD m fd with
    | None => callLater m cb [MissingPortError None]
    | Some _ => callLater m cb [VNull]
    end.

(** [new Buffer(buffer)] allocates a Buffer with the bytes of [buffer]; a
    reference that is not a Buffer of the store makes the constructor throw. *)
Definition write (m : state) (fd : value) (buffer : nat) (cb : option CB) : outcome :=
  match getPortByFD m fd with
  | None => callLater m cb [MissingPortError None]
  | Some (r, p) =>
    match bufs m !! buffer with
    | None => Thrown (TypeError "must start with number, buffer, array or string")
    | Some bytes =>
      let copy := length (bufs m) in
      callLater (mkState (nextFd m) (fds m) (ports m)
                         (<[r := set_lastWrite p copy]> (objs m))
                         (bufs m ++ [bytes]))
                cb [VNull; VNum (Z.of_nat (length bytes))]
    end
  end.

Definition flush (m : state) (fd : value) (cb : option CB) : outcome :=
  match getPortByFD m fd with
  | None => callLater m cb [MissingPortError None]
  | Some _ => callLater m cb [VNull; VUndefined]
  end.

Definition set (m : state) (fd : value) (options : object) (cb : option CB) : outcome :=
  match getPortByFD m fd with
  | None => callLater m cb [MissingPortError None]
  | Some _ => callLater m cb [VNull; VUndefined]
  end.

Definition drain (m : state) (fd : value) (cb : option CB) : outcome :=
  match getPortByFD m fd with
  | None => callLater m cb [MissingPortError None]
  | Some _ => callLater m cb [VNull; VUndefined]
  end.

(** [buffer[i] = v] by the owner of a Buffer. *)
Definition poke (m : state) (buffer i : nat) (v : byte) : state :=
  mkState (nextFd m) (fds m) (ports m) (objs m)
          (alter (λ bytes, <[i := v]> bytes) buffer (bufs m)).

(** [new Buffer(bytes)] by a caller: the new state and the new reference. *)
Definition newBuffer (m : state) (bytes : Datatypes.list byte) : state * nat :=
  (mkState (nextFd m) (fds m) (ports m) (objs m) (bufs m ++ [bytes]),
   length (bufs m)).

(** [emitData]: the inbound bytes are appended by [Buffer.concat]; the
    poller's callback, when one is registered, is called at once. *)
Definition emitData (m : state) (path : string) (bytes : Datatypes.list byte) : outcome :=
  match getPortByPath m path with
  | None => Thrown (TypeError "Cannot read property 'data' of undefined")
  | Some (r, p) =>
    let m' := set_obj m r (set_data p (data p ++ bytes)) in
    match poller p with
    | Some c => Returned m' [(c, [])] []
    | None => Returned m' [] []
    end
  end.

(** [new Poller(fd, cb)] of [mockSerialportPoller]. *)
Definition Poller (m : state) (fd : value) (cb : CB) : outcome :=
  match getPortByFD m fd with
  | None => Thrown (MissingPortError None)
  | Some (r, p) => Returned (set_obj m r (set_poller p cb)) [] []
  end.

(** The states the binding's own functions produce: every handle of the
    table is below [nextFd] and is listed by the entry it refers to, and an
    entry of the registry knows its handles under its own reference and has
    recorded options once it has a handle. *)
Record wf (m : state) : Prop := mkWf {
  wf_fds : ∀ fd r, fds m !! fd = Some r →
    fd < nextFd m ∧ ∃ p, objs m !! r = Some p ∧ fd ∈ port_fds p;
  wf_ports : ∀ path r, ports m !! path = Some r →
    ∃ p, objs m !! r = Some p
         ∧ (∀ fd, fd ∈ port_fds p → fds m !! fd = Some r)
         ∧ (port_fds p ≠ [] → is_Some (openOpt p))
}.

(** [this.ports] is a plain object whose prototype was never replaced: no
    entry was registered under [__proto__]. *)
Definition plain (m : state) : Prop := ports m !! "__proto__" = None.

(** The lock option recorded with the entry, as [open] tests it. *)
Definition recorded_lock (p : port) : bool :=
  match openOpt p with
  | Some held => truthy (get held "lock")
  | None => false
  end.

(** Handle [fd] is open on the entry at [r]. *)
Definition handle_of (m : state) (fd : Z) (r : nat) : Prop :=
  fds m !! fd = Some r ∧ ∃ p, objs m !! r = Some p ∧ fd ∈ port_fds p.

(** The contents of a Buffer. *)
Definition contents (m : state) (buffer : nat) : option (Datatypes.list byte) :=
  bufs m !! buffer.

(** Closing [a] succeeds, removes [a] from the table, and leaves [b] an
    open handle of the entry at [r]. *)
Definition closes_leaving (m : state) (a b : Z) (r : nat) : Prop :=
  ∃ m', (∀ cb, close m (VNum a) cb = Returned m' [] [(cb, [VNull])])
        ∧ fds m' !! a = None ∧ handle_of m' b r.

(** The outcome of an [open] that succeeded: nothing called before the
    return, and one queued call with [null] and a handle. *)
Definition opened (o : outcome) : bool :=
  match o with
  | Returned _ [] [(_, [VNull; VNum _])] => true
  | _ => false
  end.

(** The calls a binding function made before it returned. *)
Definition called_now (o : outcome) : Datatypes.list (CB * Datatypes.list value) :=
  match o with
  | Returned _ now _ => now
  | Thrown _ => []
  end.

(** [Object.keys(ports).map(...)]; the order of the keys is that of the
    map's enumeration, not the order of insertion that JavaScript keeps. *)
Definition list (m : state) (cb : option CB) : outcome :=
  callLater m cb
    [VNull;
     VInfos ((λ kv, match objs m !! (kv.2 : nat) with
                    | Some p => info p
                    | None => mkInfo kv.1 None None None None None None
                    end) <$> map_to_list (ports m))].

(** The states of a binding in use: [new MockBindings()], then any calls of
    its functions and any use of Buffers by their owners. *)
Inductive reachable : state → Prop :=
  | reach_new : reachable new
  | reach_reset m : reachable m → reachable (reset m)
  | reach_createPort m path : reachable m → reachable (createPort m path)
  | reach_open m path opt cb m' now later :
      reachable m → open m path opt cb = Returned m' now later → reachable m'
  | reach_close m fd cb m' now later :
      reachable m → close m fd cb = Returned m' now later → reachable m'
  | reach_update m fd opt cb m' now later :
      reachable m → update m fd opt cb = Returned m' now later → reachable m'
  | reach_write m fd buffer cb m' now later :
      reachable m → write m fd buffer cb = Returned m' now later → reachable m'
  | reach_flush m fd cb m' now later :
      reachable m → flush m fd cb = Returned m' now later → reachable m'
  | reach_set m fd options cb m' now later :
      reachable m → set m fd options cb = Returned m' now later → reachable m'
  | reach_drain m fd cb m' now later :
      reachable m → drain m fd cb = Returned m' now later → reachable m'
  | reach_list m cb m' now later :
      reachable m → list m cb = Returned m' now later → reachable m'
  | reach_emitData m path bytes m' now later :
      reachable m → emitData m path bytes = Returned m' now later → reachable m'
  | reach_Poller m fd cb m' now later :
      reachable m → Poller m fd cb = Returned m' now later → reachable m'
  | reach_newBuffer m bytes : reachable m → reachable (newBuffer m bytes).1
  | reach_poke m buffer i v : reachable m → reachable (poke m buffer i v).

(** [disconnect], the hook of the tests that simulates an unplugged device.
    [fn_of] tells which values are functions the binding can call. *)
Definition disconnect (fn_of : value → option CB) (m : state) (path : string)
    : outcome :=
  match getPortByPath m path with
  | None => Thrown (TypeError "Cannot read property 'openOpt' of undefined")
  | Some (_, p) =>
    match openOpt p with
    | None =>
        Thrown (TypeError "Cannot read property 'disconnectedCallback' of undefined")
    | Some opt =>
      match fn_of (get opt "disconnectedCallback") with
      | Some f => Returned m [(f, [Error "disconnected"])] []
      | None => Thrown (TypeError "port.openOpt.disconnectedCallback is not a function")
      end
    end
  end.

(** The call returned with the binding unchanged and nothing called, and
    queued [cb] with an error as its only argument. *)
Definition rejected (m : state) (cb : option CB) (o : outcome) : Prop :=
  ∃ name message, o = Returned m [] [(cb, [VError name message])].

(** The record [createPort] makes for [path]. *)
Definition info_of (path : string) : PortInfo :=
  mkInfo path (Some "The J5 Robotics Company") None None None None None.

(** Every entry of the registry carries the record of its own path. *)
Definition named (m : state) : Prop :=
  ∀ path r p, ports m !! path = Some r → objs m !! r = Some p →
              info p = info_of path.

(** A handle that was given out and is not in the table any more. *)
Definition retired (m : state) (n : Z) : Prop :=
  n < nextFd m ∧ fds m !! n = None.

(** [m'] is a later state of the binding [m], with no [reset] in between. *)
Inductive evolves (m : state) : state → Prop :=
  | ev_here : evolves m m
  | ev_createPort m1 path : evolves m m1 → evolves m (createPort m1 path)
  | ev_open m1 path opt cb m' now later :
      evolves m m1 → open m1 path opt cb = Returned m' now later → evolves m m'
  | ev_close m1 fd cb m' now later :
      evolves m m1 → close m1 fd cb = Returned m' now later → evolves m m'
  | ev_update m1 fd opt cb m' now later :
      evolves m m1 → update m1 fd opt cb = Returned m' now later → evolves m m'
  | ev_write m1 fd buffer cb m' now later :
      evolves m m1 → write m1 fd buffer cb = Returned m' now later → evolves m m'
  | ev_flush m1 fd cb m' now later :
      evolves m m1 → flush m1 fd cb = Returned m' now later → evolves m m'
  | ev_set m1 fd options cb m' now later :
      evolves m m1 → set m1 fd options cb = Returned m' now later → evolves m m'
  | ev_drain m1 fd cb m' now later :
      evolves m m1 → drain m1 fd cb = Returned m' now later → evolves m m'
  | ev_list m1 cb m' now later :
      evolves m m1 → list m1 cb = Returned m' now later → evolves m m'
  | ev_emitData m1 path bytes m' now later :
      evolves m m1 → emitData m1 path bytes = Returned m' now later → evolves m m'
  | ev_Poller m1 fd cb m' now later :
      evolves m m1 → Poller m1 fd cb = Returned m' now later → evolves m m'
  | ev_newBuffer m1 bytes : evolves m m1 → evolves m (newBuffer m1 bytes).1
  | ev_poke m1 buffer i v : evolves m m1 → evolves m (poke m1 buffer i v).

End WithCallbacks.
End Mock.

(** ** The port controller *)

Module SerialPort.

(** A function of user code (a callback), by name. *)
Definition fn := nat.

(** The function values the controller itself creates: the completion
    functions it passes to the binding, each closed over the caller's
    [callback], and the bound [open] the constructor schedules.  [KUser] is a
    caller's function passed on as it is. *)
Inductive closure :=
  | KUser (f : fn)
  | KBoundOpen (callback : option fn)
  | KOpen (callback : option fn)
  | KUpdate (callback : option fn)
  | KClose (callback : option fn)
  | KSet (callback : option fn)
  | KFlush (callback : option fn)
  | KDrain (callback : option fn).

(** The data of a write once it is a Buffer: a Buffer the caller passed, or
    the one [new Buffer(data, encoding)] makes of an array of byte values. *)
Inductive chunk :=
  | IsBuffer (b : nat)
  | NewBuffer (bytes : list byte).

(** A call of [this.bindings.<op>]. *)
Inductive bcall :=
  | BOpen (path : string) (options : object) (cb : closure)
  | BClose (fd : value) (cb : closure)
  | BUpdate (fd : value) (options : object) (cb : closure)
  | BWrite (fd : value) (data : chunk) (cb : option closure)
  | BSet (fd : value) (settings : object) (cb : closure)
  | BFlush (fd : value) (cb : closure)
  | BDrain (fd : value) (cb : closure).

(** What the controller does to its surroundings, in program order. *)
Inductive effect :=
  | Emit (event : string) (args : list value)
  | Call (f : fn) (args : list value)
  | Bind (c : bcall)
  | RequestBytes (bytes : value)
  | NextTick (k : closure).

(** The listeners the controller registers on itself with
    [this.once('open', ...)]. *)
Inductive listener :=
  | RetryWrite (data : chunk) (encoding : value) (callback : option fn)
  | RetryRead (bytes : value).

Record PortReader := mkReader { bytesWanted : value }.

(** [this]: [fd] is [null] or what the binding's open handed over;
    [portReader] is a property that no code of the controller assigns. *)
Record t := mk {
  path : string;
  fd : value;
  opening : bool;
  options : object;
  portReader : option PortReader;
  onceOpen : list listener
}.

Record result := mkResult {
  state : t;
  effects : list effect;
  thrown : option value
}.

(** Method bodies are state transformers that log their effects; a throw
    ends the body. *)
Definition M := t → result.

Definition skip : M := λ c, mkResult c [] None.
Definition throw (e : value) : M := λ c, mkResult c [] (Some e).
Definition perform (e : effect) : M := λ c, mkResult c [e] None.
Definition seq (a b : M) : M := λ c,
  let r := a c in
  match thrown r with
  | Some _ => r
  | None => let r' := b (state r) in
            mkResult (state r') (effects r ++ effects r') (thrown r')
  end.
Notation "a ;;; b" := (seq a b) (at level 90, right associativity).

Definition set_fd (v : value) : M := λ c,
  mkResult (mk (path c) v (opening c) (options c) (portReader c) (onceOpen c)) [] None.
Definition set_opening (b : bool) : M := λ c,
  mkResult (mk (path c) (fd c) b (options c) (portReader c) (onceOpen c)) [] None.
Definition set_options (o : object) : M := λ c,
  mkResult (mk (path c) (fd c) (opening c) o (portReader c) (onceOpen c)) [] None.
Definition set_portReader (r : option PortReader) : M := λ c,
  mkResult (mk (path c) (fd c) (opening c) (options c) r (onceOpen c)) [] None.
Definition set_onceOpen (l : list listener) : M := λ c,
  mkResult (mk (path c) (fd c) (opening c) (options c) (portReader c) l) [] None.

(** [this.once('open', l)] *)
Definition once_open (l : listener) : M := λ c, set_onceOpen (onceOpen c ++ [l]) c.

Definition emit (event : string) (args : list value) : M := perform (Emit event args).

(** [if (callback) { callback.call(this, args) }] *)
Definition call_if (callback : option fn) (args : list value) : M :=
  match callback with
  | Some f => perform (Call f args)
  | None => skip
  end.

(**  VALIDATION ARRAYS; 1.5 is no integer and so no [value] of this model. *)
Definition DATABITS : list value := [VNum 5; VNum 6; VNum 7; VNum 8].
Definition STOPBITS : list value := [VNum 1; VNum 2].
Definition PARITY : list value :=
  [VStr "none"; VStr "even"; VStr "mark"; VStr "odd"; VStr "space"].
Definition FLOWCONTROLS : list string := ["xon"; "xoff"; "xany"; "rtscts"].
Definition SET_OPTIONS : list string := ["brk"; "cts"; "dtr"; "dts"; "rts"].

(** [Bindings.platformOptions], an object of the binding. *)
Definition platformOptions : value := VObj 0.

Definition defaultSettings : object :=
  list_to_map
    [("baudRate", VNum 9600); ("autoOpen", VBool true); ("parity", VStr "none");
     ("xon", VBool false); ("xoff", VBool false); ("xany", VBool false);
     ("rtscts", VBool false); ("hupcl", VBool true); ("dataBits", VNum 8);
     ("stopBits", VNum 1); ("lock", VBool true);
     ("platformOptions", platformOptions)].

Definition defaultSetFlags : object :=
  list_to_map
    [("brk", VBool false); ("cts", VBool false); ("dtr", VBool true);
     ("dts", VBool false); ("rts", VBool true)].

Definition is_boolean (v : value) : bool :=
  match v with VBool _ => true | _ => false end.

(** The constructor: the new object and its effects, or the [TypeError] it
    throws.  The arguments have their documented types: [options] is an
    object or absent, [callback] a function or absent; the binding is the
    one the port is composed with ([System] below). *)
Definition SerialPort (path : string) (options : option object)
    (callback : option fn) : value + (t * list effect) :=
  let settings := assign defaultSettings options in
  if String.eqb path EmptyString then inl (TypeError "No path specified")
  else if negb (is_number (get settings "baudRate")) then
    inl (TypeError ("Invalid " +:+ quoted "baudRate" +:+ " must be a number got: "
                      +:+ to_string (get settings "baudRate")))
  else if negb (bool_decide (get settings "dataBits" ∈ DATABITS)) then
    inl (TypeError ("Invalid " +:+ quoted "databits" +:+ ": "
                      +:+ to_string (get settings "dataBits")))
  else if negb (bool_decide (get settings "stopBits" ∈ STOPBITS)) then
    inl (TypeError ("Invalid " +:+ quoted "stopbits" +:+ ": "
                      +:+ to_string (get settings "stopbits")))
  else if negb (bool_decide (get settings "parity" ∈ PARITY)) then
    inl (TypeError ("Invalid " +:+ quoted "parity" +:+ ": "
                      +:+ to_string (get settings "parity")))
  else
    match filter (λ control, is_boolean (get settings control) = false) FLOWCONTROLS with
    | control :: _ => inl (TypeError ("Invalid " +:+ quoted control +:+ " is not boolean"))
    | [] =>
      inr (mk path VNull false settings None [],
           if truthy (get settings "autoOpen") then [NextTick (KBoundOpen callback)]
           else [])
    end.

(** The getter of [isOpen]. *)
Definition isOpen (c : t) : bool := negb (bool_decide (fd c = VNull)).

(** An [error] event is recorded as emitted; that Node makes [emit] throw
    when user code has registered no [error] listener belongs to the
    listeners, which are the environment. *)
Definition _error (error : value) (callback : option fn) : M :=
  match callback with
  | Some f => perform (Call f [error])
  | None => emit "error" [error]
  end.

(** What [_error] does, as one effect: the callback-or-event convention. *)
Definition delivered (error : value) (callback : option fn) : effect :=
  match callback with
  | Some f => Call f [error]
  | None => Emit "error" [error]
  end.

Definition open (callback : option fn) : M := λ c,
  if isOpen c then _error (Error "Port is already open") callback c
  else if opening c then _error (Error "Port is opening") callback c
  else (set_opening true ;;;
        perform (Bind (BOpen (path c) (options c) (KOpen callback)))) c.

Definition update (options : option object) (callback : option fn) : M := λ c,
  if negb (isOpen c) then _error (Error "Port is not open") callback c
  else
    let settings := assign defaultSettings options in
    (set_options (<["baudRate" := get settings "baudRate"]> (SerialPort.options c)) ;;;
     (λ c, perform (Bind (BUpdate (fd c) (SerialPort.options c) (KUpdate callback))) c)) c.

(** The [baudRate] property of the options [update] was called with, when
    they have one. *)
Definition supplied (options : option object) : option value :=
  options ≫= (λ o, o !! "baudRate").

(** The function [update] passes to the binding. *)
Definition update_done (callback : option fn) (args : list value) : M :=
  let err := nth 0 args VUndefined in
  if truthy err then _error err callback
  else call_if callback [VNull].

Definition _write (data : chunk) (encoding : value) (callback : option fn) : M := λ c,
  if negb (isOpen c) then once_open (RetryWrite data encoding callback) c
  else perform (Bind (BWrite (fd c) data (KUser <$> callback))) c.

(** [this.portReader.requestBytes(bytes)], with the body of
    [PortReader.prototype.requestBytes]. *)
Definition requestBytes (bytes : value) : M := λ c,
  match portReader c with
  | None => throw (TypeError "Cannot read property 'requestBytes' of undefined") c
  | Some _ => (set_portReader (Some (mkReader bytes)) ;;; perform (RequestBytes bytes)) c
  end.

Definition _read (bytes : value) : M := λ c,
  ((if negb (isOpen c) then once_open (RetryRead bytes) else skip) ;;;
   requestBytes bytes) c.

Definition close (callback : option fn) : M := λ c,
  if negb (isOpen c) then _error (Error "Port is not open") callback c
  else
    let fd := fd c in
    (set_fd VNull ;;; perform (Bind (BClose fd (KClose callback)))) c.

(** The function [close] passes to the binding. *)
Definition close_done (callback : option fn) (args : list value) : M :=
  let err := nth 0 args VUndefined in
  if truthy err then _error err callback
  else emit "close" [] ;;; call_if callback [VNull].

Definition _disconnected (err : value) : M := λ c,
  if bool_decide (fd c = VNull) then skip c
  else (emit "disconnect" [err] ;;; close None) c.

(** A listener registered by [once_open], when it runs. *)
Definition run_listener (l : listener) : M :=
  match l with
  | RetryWrite data encoding callback => _write data encoding callback
  | RetryRead bytes => _read bytes
  end.

(** The one-shot listeners of a snapshot, in the order they were registered:
    each is removed (it is the oldest one left) and then called. *)
Fixpoint run_once (ls : list listener) : M :=
  match ls with
  | [] => skip
  | l :: rest =>
      (λ c, set_onceOpen (tail (onceOpen c)) c) ;;; run_listener l ;;; run_once rest
  end.

(** [this.emit('open')]: user listeners are notified, and the controller's
    own one-shot listeners that are registered at this moment run. *)
Definition emit_open : M := λ c,
  (emit "open" [] ;;; run_once (onceOpen c)) c.

(** The function [open] passes to the binding. *)
Definition open_done (callback : option fn) (args : list value) : M :=
  let err := nth 0 args VUndefined in
  let fd := nth 1 args VUndefined in
  if truthy err then _error err callback
  else set_fd fd ;;; set_opening false ;;; emit_open ;;; call_if callback [VNull].

Definition set (options : option object) (callback : option fn) : M := λ c,
  if negb (isOpen c) then _error (Error "Port is not open") callback c
  else
    let options := default ∅ options in
    let settings : object :=
      foldr (λ flag settings,
               <[flag := match options !! flag with
                         | Some VUndefined | None => get defaultSetFlags flag
                         | Some v => v
                         end]> settings) ∅ SET_OPTIONS in
    perform (Bind (BSet (fd c) settings (KSet callback))) c.

Definition set_done (callback : option fn) (args : list value) : M :=
  let err := nth 0 args VUndefined in
  if truthy err then _error err callback
  else call_if callback [VNull].

Definition flush (callback : option fn) : M := λ c,
  if negb (isOpen c) then _error (Error "Port is not open") callback c
  else perform (Bind (BFlush (fd c) (KFlush callback))) c.

Definition flush_done (callback : option fn) (args : list value) : M :=
  let err := nth 0 args VUndefined in
  let result := nth 1 args VUndefined in
  if truthy err then _error err callback
  else call_if callback [VNull; result].

Definition drain (callback : option fn) : M := λ c,
  if negb (isOpen c) then _error (Error "Port is not open") callback c
  else perform (Bind (BDrain (fd c) (KDrain callback))) c.

Definition drain_done (callback : option fn) (args : list value) : M :=
  let err := nth 0 args VUndefined in
  if truthy err then _error err callback
  else call_if callback [VNull].

(** Calling a function value the controller created. *)
Definition apply (k : closure) (args : list value) : M :=
  match k with
  | KUser f => perform (Call f args)
  | KBoundOpen callback => open callback
  | KOpen callback => open_done callback args
  | KUpdate callback => update_done callback args
  | KClose callback => close_done callback args
  | KSet callback => set_done callback args
  | KFlush callback => flush_done callback args
  | KDrain callback => drain_done callback args
  end.

(** The bytes of a chunk, given the contents of the Buffers. *)
Definition chunk_bytes (store : list (list byte)) (ch : chunk) : option (list byte) :=
  match ch with
  | IsBuffer b => store !! b
  | NewBuffer bytes => Some bytes
  end.

(** [Buffer.concat(list)] as Node had it when the source was written: a
    zero-length Buffer for the empty list, the item itself for a list of one,
    and a new Buffer with the bytes of all items otherwise; an item that is no
    Buffer makes it throw. *)
Definition Buffer_concat (store : list (list byte)) (items : list chunk)
    : option chunk :=
  match items with
  | [] => Some (NewBuffer [])
  | [item] => _ ← chunk_bytes store item; Some item
  | _ => (λ bs, NewBuffer (List.concat bs)) <$> mapM (chunk_bytes store) items
  end.

(** [_writev]: [data] is the list of queued writes, each a chunk (already a
    Buffer, or made one by [new Buffer(chunk, encoding)]) and its encoding. *)
Definition _writev (store : list (list byte)) (data : list (chunk * value))
    (callback : option fn) : M :=
  match Buffer_concat store (fst <$> data) with
  | None => throw (TypeError "list argument must be an Array of Buffers")
  | Some joined => _write joined VNull callback
  end.

(** What the constructor checks before it builds the port. *)
Definition validated (path : string) (settings : object) : Prop :=
  path ≠ EmptyString
  ∧ is_number (get settings "baudRate") = true
  ∧ get settings "dataBits" ∈ DATABITS
  ∧ get settings "stopBits" ∈ STOPBITS
  ∧ get settings "parity" ∈ PARITY
  ∧ ∀ control, control ∈ FLOWCONTROLS → is_boolean (get settings control) = true.

(** [options[flag] !== undefined ? options[flag] : defaultSetFlags[flag]] *)
Definition flag_value (options : object) (flag : string) : value :=
  match options !! flag with
  | Some VUndefined | None => get defaultSetFlags flag
  | Some v => v
  end.

(** Calls of [_write], one after the other. *)
Definition writes (ws : list (chunk * value * option fn)) : M :=
  foldr (λ w rest, _write w.1.1 w.1.2 w.2 ;;; rest) skip ws.

End SerialPort.

(** ** The controller on the mock binding *)

Module System.

Import SerialPort.

(** What is left to do in the current turn of the event loop: an effect of
    the method that is running, a function to call, or an exception on its
    way out. *)
Inductive work :=
  | Do (e : effect)
  | Invoke (k : closure) (args : list value)
  | Raise (e : value).

(** What happens, in order: the calls of the binding, and what user code
    sees. *)
Inductive obs :=
  | Bound (c : bcall)
  | Emitted (event : string) (args : list value)
  | Called (f : fn) (args : list value)
  | Requested (bytes : value)
  | Uncaught (e : value).

Record sys := mkSys {
  ctl : SerialPort.t;
  bnd : @Mock.state closure;
  stack : list work;
  queue : list (option closure * list value);
  trace : list obs
}.

(** [this.bindings.<op>(...)] with the mock binding as [this.bindings]. *)
Definition dispatch (c : bcall) (m : @Mock.state closure) : @Mock.outcome closure :=
  match c with
  | BOpen path options cb => Mock.open m path options (Some cb)
  | BClose fd cb => Mock.close m fd (Some cb)
  | BUpdate fd options cb => Mock.update m fd options (Some cb)
  | BWrite fd (IsBuffer b) cb => Mock.write m fd b cb
  | BWrite fd (NewBuffer bytes) cb =>
      let '(m', b) := Mock.newBuffer m bytes in Mock.write m' fd b cb
  | BSet fd settings cb => Mock.set m fd settings (Some cb)
  | BFlush fd cb => Mock.flush m fd (Some cb)
  | BDrain fd cb => Mock.drain m fd (Some cb)
  end.

(** Run a method body of the controller: its effects, and the exception it
    may end with, become the next work of the turn.  The assignments of the
    body are made on entry; the binding calls that pass a completion function
    of the controller are the last statement of their method, so a completion
    that the binding calls at once finds the port as the method left it. *)
Definition enter (body : M) (s : sys) : sys :=
  let r := body (ctl s) in
  mkSys (state r) (bnd s)
        ((Do <$> effects r)
           ++ match thrown r with Some e => [Raise e] | None => [] end
           ++ stack s)
        (queue s) (trace s).

Definition note (o : obs) (w : list work) (s : sys) : sys :=
  mkSys (ctl s) (bnd s) w (queue s) (trace s ++ [o]).

(** One step of the current turn. An exception that nothing catches ends
    the turn. *)
Definition step (s : sys) : option sys :=
  match stack s with
  | [] => None
  | Do (Emit event args) :: w => Some (note (Emitted event args) w s)
  | Do (Call f args) :: w => Some (note (Called f args) w s)
  | Do (RequestBytes bytes) :: w => Some (note (Requested bytes) w s)
  | Do (NextTick k) :: w =>
      Some (mkSys (ctl s) (bnd s) w (queue s ++ [(Some k, [])]) (trace s))
  | Do (Bind c) :: w =>
      match dispatch c (bnd s) with
      | Mock.Returned m now later =>
          Some (mkSys (ctl s) m (((λ ca, Invoke ca.1 ca.2) <$> now) ++ w)
                      (queue s ++ later) (trace s ++ [Bound c]))
      | Mock.Thrown e => Some (note (Uncaught e) [] (note (Bound c) [] s))
      end
  | Invoke k args :: w =>
      Some (enter (apply k args) (mkSys (ctl s) (bnd s) w (queue s) (trace s)))
  | Raise e :: _ => Some (note (Uncaught e) [] s)
  end.

(** The rest of the current turn, in at most [n] steps. *)
Fixpoint settle (n : nat) (s : sys) : sys :=
  match n with
  | O => s
  | S n' => match step s with
            | Some s' => settle n' s'
            | None => s
            end
  end.

(** The next turn: the first function queued with [process.nextTick] is
    called, if it is one. *)
Definition tick (s : sys) : sys :=
  match stack s, queue s with
  | [], (cb, args) :: q =>
      mkSys (ctl s) (bnd s)
            match cb with Some k => [Invoke k args] | None => [] end
            q (trace s)
  | _, _ => s
  end.

(** A method call by user code, up to its return. *)
Definition invoke (n : nat) (body : M) (s : sys) : sys := settle n (enter body s).

(** All turns that are queued, one after the other. *)
Fixpoint drain_queue (turns n : nat) (s : sys) : sys :=
  match turns with
  | O => s
  | S t => match queue s with
           | [] => s
           | _ :: _ => drain_queue t n (settle n (tick s))
           end
  end.

End System.

(** ** Concrete ports used below *)

Module Scenario.

Definition exists_ : string := "/dev/exists".

(** [assign({}, defaultPortOpenOptions, {lock: false})] etc. of the tests,
    reduced to the properties the binding reads. *)
Definition locking : object := {[ "baudRate" := VNum 9600; "lock" := VBool true ]}.
Definition noLock : object := {[ "baudRate" := VNum 9600; "lock" := VBool false ]}.

(** The state of an outcome, or the state before when it threw. *)
Definition after {CB} (m : @Mock.state CB) (o : @Mock.outcome CB) : @Mock.state CB :=
  match o with
  | Mock.Returned m' _ _ => m'
  | Mock.Thrown _ => m
  end.

(** The binding's callbacks are the function values of the controller;
    [user n] is a function of user code. *)
Abbreviation binding := (@Mock.state SerialPort.closure).
Definition user (n : nat) : SerialPort.closure := SerialPort.KUser n.

Definition registered : binding := Mock.createPort Mock.new exists_.

Definition opened_locked : binding :=
  after registered (Mock.open registered exists_ locking None).

Definition opened_unlocked : binding :=
  after registered (Mock.open registered exists_ noLock None).

(** The entry of [/dev/exists] in [opened_unlocked]. *)
Definition entry_unlocked : @Mock.port SerialPort.closure :=
  Mock.mkPort [] None None
    (mkInfo exists_ (Some "The J5 Robotics Company") None None None None None)
    [0] (Some noLock).

(** [opened_locked] after the caller made [new Buffer([1, 2, 3])], which is
    Buffer 0 of the store. *)
Definition with_buffer : binding :=
  (Mock.newBuffer opened_locked [x01; x02; x03]).1.

(** [new SerialPort(path, {autoOpen: false})], and the same port after its
    [open] completed with handle [fd]. *)
Definition manual : object := {[ "autoOpen" := VBool false ]}.

Definition port_on (path : string) : SerialPort.t :=
  SerialPort.mk path VNull false (assign SerialPort.defaultSettings (Some manual))
                None [].

Definition port_open (path : string) (fd : Z) : SerialPort.t :=
  SerialPort.mk path (VNum fd) false
                (assign SerialPort.defaultSettings (Some manual)) None [].

(** The same ports with a port reader attached. *)
Definition with_reader (c : SerialPort.t) : SerialPort.t :=
  SerialPort.mk (SerialPort.path c) (SerialPort.fd c) (SerialPort.opening c)
                (SerialPort.options c)
                (Some (SerialPort.mkReader VUndefined)) (SerialPort.onceOpen c).

(** A port for [path] on a mock binding that knows [/dev/exists] only. *)
Definition system_on (path : string) : System.sys :=
  System.mkSys (port_on path) registered [] [] [].

(** The port for [/dev/exists], opened by [open()] and the turn after it. *)
Definition system_open : System.sys :=
  System.drain_queue 4 16 (System.invoke 16 (SerialPort.open None) (system_on exists_)).

(** The first [open()] on a path that the binding does not know, up to its
    return. *)
Definition system_failed : System.sys :=
  System.invoke 16 (SerialPort.open None) (system_on "COMBAD").

(** The entry of [/dev/exists] when it was just registered, and in
    [opened_locked]. *)
Definition entry_fresh : @Mock.port SerialPort.closure :=
  Mock.mkPort [] None None (Mock.info_of exists_) [] None.

Definition entry_locked : @Mock.port SerialPort.closure :=
  Mock.mkPort [] None None (Mock.info_of exists_) [0] (Some locking).

(** Options as the tests pass them, with a function under
    [disconnectedCallback]; function objects are the user functions. *)
Definition watched : object :=
  {[ "baudRate" := VNum 9600; "lock" := VBool true;
     "disconnectedCallback" := VObj 7 ]}.

Definition as_function (v : value) : option SerialPort.closure :=
  match v with
  | VObj n => Some (user n)
  | _ => None
  end.

End Scenario.

(** * Properties *)

(** ** The mock binding *)

Section MockFacts.

Context {CB : Type}.
Implicit Types (m : @Mock.state CB) (p : @Mock.port CB) (cb : CB).

Lemma getPortByPath_Some m path r p :
  Mock.getPortByPath m path = Some (r, p)
  ↔ Mock.ports m !! path = Some r ∧ Mock.objs m !! r = Some p.
Proof.
  unfold Mock.getPortByPath. split.
  - destruct (Mock.ports m !! path) as [r'|]; simpl; [|done].
    destruct (Mock.objs m !! r') as [p'|] eqn:E; simpl; [|done].
    intros [= <- <-]. done.
  - intros [-> H]. simpl. by rewrite H.
Qed.

Lemma getPortByFD_Some m fd r p :
  Mock.getPortByFD m fd = Some (r, p)
  ↔ ∃ n, fd = VNum n ∧ Mock.fds m !! n = Some r ∧ Mock.objs m !! r = Some p.
Proof.
  unfold Mock.getPortByFD. split.
  - destruct fd; try done.
    destruct (Mock.fds m !! n) as [r'|] eqn:F; simpl; [|done].
    destruct (Mock.objs m !! r') as [p'|] eqn:E; simpl; [|done].
    intros [= <- <-]. eauto.
  - intros (n & -> & -> & H). simpl. by rewrite H.
Qed.

Lemma wf_new : Mock.wf (@Mock.new CB).
Proof. split; simpl; intros ? ?; by rewrite lookup_empty. Qed.

Lemma wf_reset m : Mock.wf (Mock.reset m).
Proof. split; simpl; intros ? ?; by rewrite lookup_empty. Qed.

Lemma wf_createPort m path : Mock.wf m → Mock.wf (Mock.createPort m path).
Proof.
  intros [Hf Hp]. split; simpl.
  - intros fd r H. destruct (Hf _ _ H) as (? & p & Hr & ?).
    split; [done|]. exists p. split; [|done].
    rewrite lookup_app_l; [done|]. by eapply lookup_lt_Some.
  - intros path' r. destruct (decide (path = path')) as [->|Hne].
    + rewrite lookup_insert_eq. intros [= <-].
      eexists. split; [by rewrite list_lookup_middle|].
      simpl. split; [intros ? H; by apply elem_of_nil in H | done].
    + rewrite lookup_insert_ne; [|done]. intros H.
      destruct (Hp _ _ H) as (p & Hr & ?). exists p. split; [|done].
      rewrite lookup_app_l; [done|]. by eapply lookup_lt_Some.
Qed.

Lemma lock_held_spec p :
  (Mock.port_fds p ≠ [] → is_Some (Mock.openOpt p)) →
  Mock.lock_held p
  = Some (bool_decide (Mock.port_fds p ≠ []) && Mock.recorded_lock p).
Proof.
  unfold Mock.lock_held, Mock.recorded_lock. intros H.
  destruct (Mock.port_fds p) as [|fd l]; [done|].
  destruct H as [held ->]; [done|]. done.
Qed.

(** The state [open] leaves when it succeeds on the entry [p] at [r]. *)
Lemma open_unlocked m path opt (cb : option CB) r p :
  Mock.getPortByPath m path = Some (r, p) →
  Mock.lock_held p = Some false →
  Mock.open m path opt cb
  = Mock.Returned
      (Mock.mkState (Mock.nextFd m + 1) (<[Mock.nextFd m := r]> (Mock.fds m))
         (Mock.ports m)
         (<[r := Mock.set_port_fds (Mock.set_openOpt p opt)
                   (Mock.port_fds p ++ [Mock.nextFd m])]> (Mock.objs m))
         (Mock.bufs m))
      [] [(cb, [VNull; VNum (Mock.nextFd m)])].
Proof. intros Hp Hl. unfold Mock.open. by rewrite Hp, Hl. Qed.

Lemma wf_fresh m fd : Mock.wf m → Mock.nextFd m ≤ fd → Mock.fds m !! fd = None.
Proof.
  intros [Hf _] Hle. destruct (Mock.fds m !! fd) as [r|] eqn:E; [|done].
  destruct (Hf _ _ E). lia.
Qed.

Lemma wf_open m path opt (cb : option CB) m' now later :
  Mock.wf m → Mock.open m path opt cb = Mock.Returned m' now later → Mock.wf m'.
Proof.
  intros Hwf. unfold Mock.open, Mock.call, Mock.callLater.
  destruct (Mock.getPortByPath m path) as [[r p]|] eqn:Hg.
  2:{ destruct (inherited path); [done|]. destruct cb; intros [= <- _ _] || done; done. }
  destruct (Mock.lock_held p) as [[]|]; [destruct cb; intros [= <- _ _] || done; done| |done].
  intros [= <- _ _]. apply getPortByPath_Some in Hg as [Hp Ho].
  pose proof (wf_fresh m (Mock.nextFd m) Hwf ltac:(lia)) as Hfresh.
  destruct Hwf as [Hf Hpt]. split; simpl.
  - intros fd r'. destruct (decide (Mock.nextFd m = fd)) as [<-|Hne].
    + rewrite lookup_insert_eq. intros [= <-]. split; [lia|].
      eexists. split; [apply list_lookup_insert_eq; by eapply lookup_lt_Some|].
      simpl. apply elem_of_app. right. by apply list_elem_of_singleton.
    + rewrite lookup_insert_ne; [|done]. intros H.
      destruct (Hf _ _ H) as (? & p0 & Hr & Hin). split; [lia|].
      destruct (decide (r = r')) as [<-|Hr'].
      * eexists. split; [apply list_lookup_insert_eq; by eapply lookup_lt_Some|].
        simpl. assert (p0 = p) as -> by congruence. apply elem_of_app. by left.
      * exists p0. by rewrite list_lookup_insert_ne.
  - intros path' r' H. destruct (Hpt _ _ H) as (p0 & Hr & Hin & Hopt).
    destruct (decide (r = r')) as [<-|Hr'].
    + eexists. split; [apply list_lookup_insert_eq; by eapply lookup_lt_Some|].
      simpl. assert (p0 = p) as -> by congruence. split; [|eauto].
      intros fd [Hfd| ->%list_elem_of_singleton]%elem_of_app.
      * rewrite lookup_insert_ne; [by apply Hin|].
        intros <-. apply Hin in Hfd. congruence.
      * apply lookup_insert_eq.
    + exists p0. rewrite list_lookup_insert_ne; [|done]. split; [done|].
      split; [|done]. intros fd Hfd. rewrite lookup_insert_ne; [by apply Hin|].
      intros <-. apply Hin in Hfd. congruence.
Qed.


Lemma wf_close m fd (cb : option CB) m' now later :
  Mock.wf m → Mock.close m fd cb = Mock.Returned m' now later → Mock.wf m'.
Proof.
  intros Hwf. unfold Mock.close, Mock.callLater.
  destruct (Mock.getPortByFD m fd) as [[r p]|] eqn:Hg; [|by intros [= <- _ _]].
  apply getPortByFD_Some in Hg as (n & -> & Hn & Ho).
  intros [= <- _ _]. destruct Hwf as [Hf Hpt].
  assert (r < length (Mock.objs m))%nat by by eapply lookup_lt_Some.
  split; simpl.
  - intros fd r'. destruct (decide (n = fd)) as [<-|Hne].
    + by rewrite lookup_delete_eq.
    + rewrite lookup_delete_ne; [|done]. intros H'.
      destruct (Hf _ _ H') as (? & p0 & Hr & Hin). split; [done|].
      destruct (decide (r = r')) as [<-|Hr'].
      * eexists. split; [by apply list_lookup_insert_eq|]. simpl.
        assert (p0 = p) as -> by congruence.
        apply list_elem_of_filter. split; [congruence|done].
      * exists p0. by rewrite list_lookup_insert_ne.
  - intros path' r' H'. destruct (Hpt _ _ H') as (p0 & Hr & Hin & Hopt).
    destruct (decide (r = r')) as [<-|Hr'].
    + eexists. split; [by apply list_lookup_insert_eq|]. simpl.
      assert (p0 = p) as -> by congruence. split.
      * intros fd [Hfd Hfd']%list_elem_of_filter.
        rewrite lookup_delete_ne; [by apply Hin|congruence].
      * intros Hne. apply Hopt. intros He. apply Hne. by rewrite He.
    + exists p0. rewrite list_lookup_insert_ne; [|done]. split; [done|].
      split; [|done]. intros fd Hfd. rewrite lookup_delete_ne; [by apply Hin|].
      intros <-. apply Hin in Hfd. congruence.
Qed.

(** Replacing an entry by one with the same handles and recorded options,
    and any change of the Buffers, keeps the invariant. *)
Lemma wf_set_obj m r p p' b :
  Mock.wf m → Mock.objs m !! r = Some p →
  Mock.port_fds p' = Mock.port_fds p → Mock.openOpt p' = Mock.openOpt p →
  Mock.wf (Mock.mkState (Mock.nextFd m) (Mock.fds m) (Mock.ports m)
             (<[r := p']> (Mock.objs m)) b).
Proof.
  intros [Hf Hpt] Ho Hfds Hopt.
  assert (r < length (Mock.objs m))%nat by by eapply lookup_lt_Some.
  split; simpl.
  - intros fd r' H'. destruct (Hf _ _ H') as (? & p0 & Hr & Hin). split; [done|].
    destruct (decide (r = r')) as [<-|Hr'].
    + eexists. split; [by apply list_lookup_insert_eq|]. rewrite Hfds. congruence.
    + exists p0. by rewrite list_lookup_insert_ne.
  - intros path' r' H'. destruct (Hpt _ _ H') as (p0 & Hr & Hin & Ho').
    destruct (decide (r = r')) as [<-|Hr'].
    + eexists. split; [by apply list_lookup_insert_eq|]. rewrite Hfds, Hopt.
      by assert (p0 = p) as -> by congruence.
    + exists p0. by rewrite list_lookup_insert_ne.
Qed.

Lemma wf_bufs m b :
  Mock.wf m →
  Mock.wf (Mock.mkState (Mock.nextFd m) (Mock.fds m) (Mock.ports m) (Mock.objs m) b).
Proof. intros [Hf Hpt]. by split. Qed.

Lemma wf_write m fd buffer (cb : option CB) m' now later :
  Mock.wf m → Mock.write m fd buffer cb = Mock.Returned m' now later → Mock.wf m'.
Proof.
  intros Hwf. unfold Mock.write, Mock.callLater.
  destruct (Mock.getPortByFD m fd) as [[r p]|] eqn:Hg; [|by intros [= <- _ _]].
  apply getPortByFD_Some in Hg as (n & -> & Hn & Ho).
  destruct (Mock.bufs m !! buffer) as [bytes|]; [|done].
  intros [= <- _ _]. destruct Hwf as [Hf Hpt].
  assert (r < length (Mock.objs m))%nat by by eapply lookup_lt_Some.
  split; simpl.
  - intros fd r' H'. destruct (Hf _ _ H') as (? & p0 & Hr & Hin). split; [done|].
    destruct (decide (r = r')) as [<-|Hr'].
    + eexists. split; [by apply list_lookup_insert_eq|]. simpl. congruence.
    + exists p0. by rewrite list_lookup_insert_ne.
  - intros path' r' H'. destruct (Hpt _ _ H') as (p0 & Hr & Hin & Hopt).
    destruct (decide (r = r')) as [<-|Hr'].
    + eexists. split; [by apply list_lookup_insert_eq|]. simpl.
      by assert (p0 = p) as -> by congruence.
    + exists p0. by rewrite list_lookup_insert_ne.
Qed.

(** [update], [flush], [set], [drain] and [list] leave the binding as it is. *)
Lemma update_state m fd opt (cb : option CB) m' now later :
  Mock.update m fd opt cb = Mock.Returned m' now later → m' = m.
Proof.
  unfold Mock.update, Mock.callLater.
  destruct (negb _); [done|]. by destruct (Mock.getPortByFD m fd); intros [= <- _ _].
Qed.

Lemma flush_state m fd (cb : option CB) m' now later :
  Mock.flush m fd cb = Mock.Returned m' now later → m' = m.
Proof.
  unfold Mock.flush, Mock.callLater.
  by destruct (Mock.getPortByFD m fd); intros [= <- _ _].
Qed.

Lemma set_state m fd options (cb : option CB) m' now later :
  Mock.set m fd options cb = Mock.Returned m' now later → m' = m.
Proof.
  unfold Mock.set, Mock.callLater.
  by destruct (Mock.getPortByFD m fd); intros [= <- _ _].
Qed.

Lemma drain_state m fd (cb : option CB) m' now later :
  Mock.drain m fd cb = Mock.Returned m' now later → m' = m.
Proof.
  unfold Mock.drain, Mock.callLater.
  by destruct (Mock.getPortByFD m fd); intros [= <- _ _].
Qed.

Lemma close_handle m fd r :
  Mock.handle_of m fd r →
  ∃ m', (∀ cb : option CB,
           Mock.close m (VNum fd) cb = Mock.Returned m' [] [(cb, [VNull])])
        ∧ Mock.fds m' !! fd = None
        ∧ ∀ fd' r', fd' ≠ fd → Mock.handle_of m fd' r' → Mock.handle_of m' fd' r'.
Proof.
  intros [Hfd (p & Hr & Hin)].
  assert (Mock.getPortByFD m (VNum fd) = Some (r, p)) as Hg.
  { apply getPortByFD_Some. eauto. }
  assert (r < length (Mock.objs m))%nat by by eapply lookup_lt_Some.
  eexists. split; [|split].
  - intros cb. unfold Mock.close. rewrite Hg. reflexivity.
  - simpl. apply lookup_delete_eq.
  - intros fd' r' Hne [Hfd' (p' & Hr' & Hin')]. split; simpl.
    + by rewrite lookup_delete_ne.
    + destruct (decide (r = r')) as [<-|Hrr].
      * eexists. split; [by apply list_lookup_insert_eq|]. simpl.
        assert (p' = p) as -> by congruence.
        apply list_elem_of_filter. split; done.
      * exists p'. by rewrite list_lookup_insert_ne.
Qed.

(** Every state of a binding in use satisfies the invariant. *)
Lemma reachable_wf m : Mock.reachable m → Mock.wf m.
Proof.
  induction 1 as
    [ | m _ IH | m path _ IH | m path opt cb m' now later _ IH E
    | m fd cb m' now later _ IH E | m fd opt cb m' now later _ IH E
    | m fd buffer cb m' now later _ IH E | m fd cb m' now later _ IH E
    | m fd options cb m' now later _ IH E | m fd cb m' now later _ IH E
    | m cb m' now later _ IH E | m path bytes m' now later _ IH E
    | m fd cb m' now later _ IH E | m bytes _ IH | m buffer i v _ IH ].
  - apply wf_new.
  - apply wf_reset.
  - by apply wf_createPort.
  - by eapply wf_open.
  - by eapply wf_close.
  - by rewrite (update_state _ _ _ _ _ _ _ E).
  - by eapply wf_write.
  - by rewrite (flush_state _ _ _ _ _ _ E).
  - by rewrite (set_state _ _ _ _ _ _ _ E).
  - by rewrite (drain_state _ _ _ _ _ _ E).
  - unfold Mock.list, Mock.callLater in E. by injection E as <- _ _.
  - unfold Mock.emitData in E.
    destruct (Mock.getPortByPath m path) as [[r p]|] eqn:Hg; [|done].
    apply getPortByPath_Some in Hg as [_ Ho].
    assert (m' = Mock.set_obj m r (Mock.set_data p (Mock.data p ++ bytes))) as ->
      by (destruct (Mock.poller p); by injection E as <- _ _).
    by eapply wf_set_obj.
  - unfold Mock.Poller in E.
    destruct (Mock.getPortByFD m fd) as [[r p]|] eqn:Hg; [|done].
    apply getPortByFD_Some in Hg as (n & _ & _ & Ho).
    injection E as <- _ _. by eapply wf_set_obj.
  - by apply wf_bufs.
  - by apply wf_bufs.
Qed.

(** C5, as the code has it.  When a registered path has an open handle and
    the lock option recorded with its entry is not true, a further open of
    the path succeeds, whatever its own options say; the two handles are
    different, both are open handles of the one entry, and either can be
    closed with the other one staying in the handle table and in the entry's
    handle list. *)
Theorem mock_open_beside_unlocked m path r p fd1 opt (cb : option CB) :
  Mock.wf m →
  Mock.getPortByPath m path = Some (r, p) →
  fd1 ∈ Mock.port_fds p →
  Mock.recorded_lock p = false →
  ∃ m2,
    Mock.open m path opt cb
    = Mock.Returned m2 [] [(cb, [VNull; VNum (Mock.nextFd m)])]
    ∧ Mock.nextFd m ≠ fd1
    ∧ Mock.handle_of m2 fd1 r
    ∧ Mock.handle_of m2 (Mock.nextFd m) r
    ∧ Mock.closes_leaving m2 fd1 (Mock.nextFd m) r
    ∧ Mock.closes_leaving m2 (Mock.nextFd m) fd1 r.
Proof.
  intros Hwf Hg Hin Hrec.
  pose proof Hg as [Hp Ho]%getPortByPath_Some.
  destruct (Mock.wf_ports m Hwf _ _ Hp) as (p0 & Hr & Hall & Hopt).
  assert (p0 = p) as -> by congruence.
  assert (Mock.lock_held p = Some false) as Hl.
  { rewrite lock_held_spec, Hrec by done. by rewrite andb_false_r. }
  pose proof (open_unlocked m path opt cb r p Hg Hl) as Hopen.
  pose proof (wf_open _ _ _ _ _ _ _ Hwf Hopen) as Hwf2.
  assert (Mock.nextFd m ≠ fd1) as Hne.
  { intros <-. apply Hall in Hin. by rewrite (wf_fresh m _ Hwf) in Hin. }
  assert (r < length (Mock.objs m))%nat by by eapply lookup_lt_Some.
  eexists. split; [exact Hopen|]. split; [done|].
  match type of Hopen with _ = Mock.Returned ?s _ _ => set (m2 := s) in * end.
  assert (Mock.handle_of m2 fd1 r) as H1.
  { split; simpl.
    - rewrite lookup_insert_ne by done. by apply Hall.
    - eexists. split; [by apply list_lookup_insert_eq|]. simpl.
      apply elem_of_app. by left. }
  assert (Mock.handle_of m2 (Mock.nextFd m) r) as H2.
  { split; simpl.
    - apply lookup_insert_eq.
    - eexists. split; [by apply list_lookup_insert_eq|]. simpl.
      apply elem_of_app. right. by apply list_elem_of_singleton. }
  split; [done|]. split; [done|]. split.
  - destruct (close_handle m2 fd1 r H1) as (m3 & Hc & Hgone & Hkeep).
    exists m3. split; [done|]. split; [done|]. by apply Hkeep.
  - destruct (close_handle m2 (Mock.nextFd m) r H2) as (m3 & Hc & Hgone & Hkeep).
    exists m3. split; [done|]. split; [done|]. apply Hkeep; [congruence|done].
Qed.

(** C6. [update] on the mock binding with options that have no [baudRate]
    property throws "Missing baudRate", whatever the handle: the call does
    not return, so no callback is called or queued. *)
Theorem mock_update_throws m fd (opt : object) (cb : option CB) :
  opt !! "baudRate" = None →
  Mock.update m fd opt cb = Mock.Thrown (Error "Missing baudRate").
Proof. intros H. unfold Mock.update, get. by rewrite H. Qed.

Lemma poke_keeps m buffer i v other :
  other ≠ buffer →
  Mock.contents (Mock.poke m buffer i v) other = Mock.contents m other.
Proof.
  intros Hne. unfold Mock.contents, Mock.poke. simpl.
  by apply list_lookup_alter_ne.
Qed.

Lemma pokes_keep (muts : list (nat * byte)) m buffer other :
  other ≠ buffer →
  Mock.contents (foldl (λ m iv, Mock.poke m buffer iv.1 iv.2) m muts) other
  = Mock.contents m other.
Proof.
  intros Hne. revert m. induction muts as [|[i v] muts IH]; intros m; [done|].
  simpl. rewrite IH. by apply poke_keeps.
Qed.

Lemma pokes_objs (muts : list (nat * byte)) m buffer :
  Mock.objs (foldl (λ m iv, Mock.poke m buffer iv.1 iv.2) m muts) = Mock.objs m
  ∧ Mock.fds (foldl (λ m iv, Mock.poke m buffer iv.1 iv.2) m muts) = Mock.fds m.
Proof.
  revert m. induction muts as [|[i v] muts IH]; intros m; [done|].
  simpl. by destruct (IH (Mock.poke m buffer i v)) as [-> ->].
Qed.

(** C7. [write] on the mock binding.  For a handle with an entry, [write]
    allocates a new Buffer with the bytes of the caller's Buffer, records it
    as the entry's [lastWrite], and queues the callback with [null] and the
    length of the input; whatever the caller afterwards writes into its own
    Buffer, the recorded Buffer still holds the bytes written.  For a handle
    without an entry the callback is queued with a [MissingPortError] and
    nothing changes. *)
Theorem mock_write_copies m fd buffer bytes (cb : option CB) :
  Mock.contents m buffer = Some bytes →
  match Mock.getPortByFD m fd with
  | None =>
      Mock.write m fd buffer cb
      = Mock.Returned m [] [(cb, [Mock.MissingPortError None])]
  | Some (r, p) =>
      ∃ m' copy p',
        Mock.write m fd buffer cb
        = Mock.Returned m' [] [(cb, [VNull; VNum (Z.of_nat (length bytes))])]
        ∧ copy ≠ buffer
        ∧ Mock.getPortByFD m' fd = Some (r, p')
        ∧ Mock.lastWrite p' = Some copy
        ∧ Mock.contents m' copy = Some bytes
        ∧ ∀ muts : list (nat * byte),
            let m'' := foldl (λ m iv, Mock.poke m buffer iv.1 iv.2) m' muts in
            Mock.getPortByFD m'' fd = Some (r, p')
            ∧ Mock.contents m'' copy = Some bytes
  end.
Proof.
  intros Hb. unfold Mock.contents in Hb.
  destruct (Mock.getPortByFD m fd) as [[r p]|] eqn:Hg.
  2:{ unfold Mock.write. by rewrite Hg. }
  pose proof Hg as (n & -> & Hn & Ho)%getPortByFD_Some.
  assert (r < length (Mock.objs m))%nat by by eapply lookup_lt_Some.
  assert (buffer < length (Mock.bufs m))%nat by by eapply lookup_lt_Some.
  eexists _, (length (Mock.bufs m)), _.
  split; [unfold Mock.write; rewrite Hg, Hb; reflexivity|].
  split; [lia|].
  assert (∀ X Y, Mock.getPortByFD
            (Mock.mkState X (Mock.fds m) Y
               (<[r:=Mock.set_lastWrite p (length (Mock.bufs m))]> (Mock.objs m))
               (Mock.bufs m ++ [bytes])) (VNum n)
          = Some (r, Mock.set_lastWrite p (length (Mock.bufs m)))) as Hg'.
  { intros. apply getPortByFD_Some. exists n. simpl.
    split; [done|]. split; [done|]. by apply list_lookup_insert_eq. }
  split; [apply Hg'|]. split; [done|].
  assert (∀ X Y Z, Mock.contents
            (Mock.mkState X Y Z
               (<[r:=Mock.set_lastWrite p (length (Mock.bufs m))]> (Mock.objs m))
               (Mock.bufs m ++ [bytes])) (length (Mock.bufs m)) = Some bytes) as Hc.
  { intros. unfold Mock.contents. simpl. by rewrite list_lookup_middle. }
  split; [apply Hc|].
  intros muts. cbv zeta. split.
  - apply getPortByFD_Some. exists n.
    destruct (pokes_objs muts
      (Mock.mkState (Mock.nextFd m) (Mock.fds m) (Mock.ports m)
         (<[r:=Mock.set_lastWrite p (length (Mock.bufs m))]> (Mock.objs m))
         (Mock.bufs m ++ [bytes])) buffer) as [-> ->]. simpl.
    split; [done|]. split; [done|]. by apply list_lookup_insert_eq.
  - rewrite pokes_keep by lia. apply Hc.
Qed.

(** Every other function of the binding hands its callback to [callLater]:
    nothing is called before the function returns. *)
Lemma mock_others_defer m fd buffer (opt : object) (cb : option CB) :
  Mock.called_now (Mock.close m fd cb) = []
  ∧ Mock.called_now (Mock.update m fd opt cb) = []
  ∧ Mock.called_now (Mock.write m fd buffer cb) = []
  ∧ Mock.called_now (Mock.flush m fd cb) = []
  ∧ Mock.called_now (Mock.set m fd opt cb) = []
  ∧ Mock.called_now (Mock.drain m fd cb) = []
  ∧ Mock.called_now (Mock.list m cb) = [].
Proof.
  unfold Mock.close, Mock.update, Mock.write, Mock.flush, Mock.set, Mock.drain,
    Mock.list, Mock.callLater.
  repeat split; repeat case_match; done.
Qed.

End MockFacts.

Section MockExamples.

Import Scenario.

Lemma wf_registered : Mock.wf registered.
Proof. apply wf_createPort, wf_new. Qed.

Lemma wf_opened_unlocked : Mock.wf opened_unlocked.
Proof.
  eapply (wf_open registered exists_ noLock None); [apply wf_registered|].
  reflexivity.
Qed.



(** The three cases of [open], run: the spec's scenario on [/dev/exists]. *)
Example open_scenario :
  Mock.open Mock.new "COMBAD" locking (Some (user 1))
  = Mock.Returned Mock.new [(user 1, [VError "MissingPortError" "COMBAD"])] []
  ∧ Mock.open registered exists_ locking (Some (user 1))
    = Mock.Returned opened_locked [] [(Some (user 1), [VNull; VNum 0])]
  ∧ Mock.open opened_locked exists_ locking (Some (user 2))
    = Mock.Returned opened_locked
        [(user 2, [VError "Error" "port is locked cannot open"])] []
  ∧ Mock.called_now
      (Mock.open (after opened_locked (Mock.close opened_locked (VNum 0) None))
                 exists_ locking (Some (user 3))) = []
  ∧ Mock.opened
      (Mock.open (after opened_locked (Mock.close opened_locked (VNum 0) None))
                 exists_ locking (Some (user 3))) = true
  ∧ Mock.nextFd opened_locked = 1.
Proof. repeat split; vm_compute; reflexivity. Qed.

(** C2, at the input where it fails: [open] of a path that is not registered
    calls the callback before it returns, and queues nothing. *)
Theorem mock_open_error_is_synchronous :
  Mock.open registered "COMBAD" locking (Some (user 7))
  = Mock.Returned registered [(user 7, [VError "MissingPortError" "COMBAD"])] []
  ∧ Mock.called_now (Mock.open opened_locked exists_ locking (Some (user 7)))
    = [(user 7, [VError "Error" "port is locked cannot open"])].
Proof. split; vm_compute; reflexivity. Qed.

(** C5 as the spec words it fails: the path has one open handle, recorded
    with [lock: true]; a second open whose own options say [lock: false] is
    refused. *)
Lemma mock_open_noLock_refused :
  (Mock.port_fds <$> (snd <$> Mock.getPortByPath opened_locked exists_)) = Some [0]
  ∧ get noLock "lock" = VBool false
  ∧ Mock.opened (Mock.open opened_locked exists_ noLock (Some (user 2))) = false
  ∧ Mock.called_now (Mock.open opened_locked exists_ noLock (Some (user 2)))
    = [(user 2, [VError "Error" "port is locked cannot open"])].
Proof. repeat split; vm_compute; reflexivity. Qed.

Lemma mock_open_beside_unlocked_witness :
  Mock.wf opened_unlocked
  ∧ Mock.getPortByPath opened_unlocked exists_ = Some (0%nat, entry_unlocked)
  ∧ 0 ∈ Mock.port_fds entry_unlocked
  ∧ Mock.recorded_lock entry_unlocked = false
  ∧ ∃ m2,
        Mock.open opened_unlocked exists_ locking (Some (user 2))
        = Mock.Returned m2 [] [(Some (user 2), [VNull; VNum 1])]
        ∧ 1 ≠ 0
        ∧ Mock.handle_of m2 0 0%nat
        ∧ Mock.handle_of m2 1 0%nat
        ∧ Mock.closes_leaving m2 0 1 0%nat
        ∧ Mock.closes_leaving m2 1 0 0%nat.
Proof.
  assert (0 ∈ Mock.port_fds entry_unlocked) as Hin
    by (apply list_elem_of_singleton; reflexivity).
  split; [exact wf_opened_unlocked|].
  split; [vm_compute; reflexivity|].
  split; [exact Hin|]. split; [vm_compute; reflexivity|].
  refine (mock_open_beside_unlocked opened_unlocked exists_ 0%nat entry_unlocked
            0 locking (Some (user 2)) wf_opened_unlocked _ Hin _);
    vm_compute; reflexivity.
Defined.

Lemma mock_update_throws_witness :
  (∅ : object) !! "baudRate" = None
  ∧ Mock.update registered (VNum 99) ∅ (Some (user 1))
    = Mock.Thrown (Error "Missing baudRate").
Proof.
  split; [reflexivity|].
  apply (mock_update_throws registered (VNum 99) ∅ (Some (user 1))). reflexivity.
Defined.

Lemma mock_write_copies_witness :
  Mock.contents with_buffer 0 = Some [x01; x02; x03]
  ∧ ∃ m' copy p',
      Mock.write with_buffer (VNum 0) 0 (Some (user 1))
      = Mock.Returned m' [] [(Some (user 1), [VNull; VNum 3])]
      ∧ copy ≠ 0%nat
      ∧ Mock.getPortByFD m' (VNum 0) = Some (0%nat, p')
      ∧ Mock.lastWrite p' = Some copy
      ∧ Mock.contents m' copy = Some [x01; x02; x03]
      ∧ ∀ muts : list (nat * byte),
          let m'' := foldl (λ m iv, Mock.poke m 0 iv.1 iv.2) m' muts in
          Mock.getPortByFD m'' (VNum 0) = Some (0%nat, p')
          ∧ Mock.contents m'' copy = Some [x01; x02; x03].
Proof.
  split; [reflexivity|].
  apply (mock_write_copies with_buffer (VNum 0) 0 [x01; x02; x03] (Some (user 1))).
  reflexivity.
Defined.

(** The spec's scenario: write [1, 2, 3], then overwrite the caller's Buffer;
    the binding reports 3 bytes and still has [1, 2, 3] as its last write. *)
Example write_scenario :
  let m' := after with_buffer (Mock.write with_buffer (VNum 0) 0 (Some (user 1))) in
  let m'' := Mock.poke (Mock.poke m' 0 0 xff) 0 2 x00 in
  Mock.contents m'' 0 = Some [xff; x02; x00]
  ∧ ((snd <$> Mock.getPortByFD m'' (VNum 0)) ≫= Mock.lastWrite) = Some 1%nat
  ∧ Mock.contents m'' 1 = Some [x01; x02; x03].
Proof. repeat split; vm_compute; reflexivity. Qed.

End MockExamples.


(** ** The event loop *)

Section SystemFacts.

(** Once the turn is over, more steps change nothing: the number of steps
    given to [settle] only has to be large enough. *)
Lemma settle_idle n k s :
  System.stack (System.settle n s) = [] →
  System.settle (n + k) s = System.settle n s.
Proof.
  revert s. induction n as [|n IH]; intros s H; simpl in *.
  - destruct k; [done|]. simpl. unfold System.step. by rewrite H.
  - destruct (System.step s) as [s'|]; [by apply IH|done].
Qed.

End SystemFacts.

(** ** The port controller *)

Section ControllerFacts.

Import SerialPort Scenario.

Implicit Types (c : SerialPort.t) (callback : option fn).

Lemma _error_delivers error callback c :
  _error error callback c = mkResult c [delivered error callback] None.
Proof. by destruct callback. Qed.

Lemma isOpen_fd c : isOpen c = true ↔ fd c ≠ VNull.
Proof.
  unfold isOpen. destruct (decide (fd c = VNull)) as [E|E].
  - rewrite bool_decide_eq_true_2 by done. simpl. split; [done|]. by intros [].
  - by rewrite bool_decide_eq_false_2.
Qed.

(** While an attempt is in progress, [open] is refused at once and the
    binding is not called. *)
Lemma open_while_opening c callback :
  isOpen c = false → opening c = true →
  open callback c = mkResult c [delivered (Error "Port is opening") callback] None.
Proof. intros H1 H2. unfold open. rewrite H1, H2. apply _error_delivers. Qed.

(** When the binding reports an error, the completion function of [open]
    delivers it and returns before it resets [opening]. *)
Lemma open_done_error c callback err rest :
  truthy err = true →
  open_done callback (err :: rest) c = mkResult c [delivered err callback] None.
Proof. intros H. unfold open_done. simpl. rewrite H. apply _error_delivers. Qed.

Lemma open_failure_leaves_guard c callback callback' err rest :
  isOpen c = false → opening c = false → truthy err = true →
  let c1 := state (open callback c) in
  let c2 := state (open_done callback (err :: rest) c1) in
  isOpen c2 = false ∧ opening c2 = true
  ∧ open callback' c2
    = mkResult c2 [delivered (Error "Port is opening") callback'] None.
Proof.
  intros H1 H2 H3. unfold open. rewrite H1, H2. simpl.
  rewrite open_done_error by done. simpl.
  split; [exact H1|]. split; [done|]. by apply open_while_opening.
Qed.

(** C3, at the input where it fails.  A port for a path the binding does not
    know: [open()] calls the binding, which reports a [MissingPortError]; the
    attempt is over (nothing is left to run or queued) and the port is
    closed, but [opening] is still set, and the next [open(cb)] is refused
    with "Port is opening" without a call of the binding. *)
Theorem open_guard_stays_after_failure :
  System.trace system_failed
  = [System.Bound (BOpen "COMBAD" (options (port_on "COMBAD")) (KOpen None));
     System.Emitted "error" [VError "MissingPortError" "COMBAD"]]
  ∧ System.stack system_failed = []
  ∧ System.queue system_failed = []
  ∧ isOpen (System.ctl system_failed) = false
  ∧ opening (System.ctl system_failed) = true
  ∧ System.trace (System.invoke 16 (open (Some 5%nat)) system_failed)
    = System.trace system_failed
        ++ [System.Called 5%nat [VError "Error" "Port is opening"]]
  ∧ System.stack (System.invoke 16 (open (Some 5%nat)) system_failed) = []
  ∧ System.queue (System.invoke 16 (open (Some 5%nat)) system_failed) = [].
Proof. repeat split; vm_compute; reflexivity. Qed.

(** C4 as the spec words it fails: a port that holds handle 0 is told of a
    disconnect, and the binding's [close] is called. *)
Lemma disconnected_calls_binding_close :
  isOpen (port_open exists_ 0) = true
  ∧ effects (_disconnected (Error "disconnected") (port_open exists_ 0))
    = [Emit "disconnect" [VError "Error" "disconnected"];
       Bind (BClose (VNum 0) (KClose None))]
  ∧ ¬ Forall (λ e, ∀ b, e ≠ Bind b)
        (effects (_disconnected (Error "disconnected") (port_open exists_ 0))).
Proof.
  split; [reflexivity|]. split; [reflexivity|].
  intros H. apply Forall_cons in H as [_ H]. apply Forall_cons in H as [H _].
  by eapply H.
Qed.

(** C4, as the code has it.  [_disconnected] does nothing on a port without
    a handle.  On a port with a handle it emits [disconnect] with the error
    and then does what [close()] without a callback does: the handle is
    cleared and the binding's [close] is called once, with the handle the
    port had. *)
Theorem disconnected_closes c (err : value) :
  if isOpen c then
    state (_disconnected err c) = state (close None c)
    ∧ effects (_disconnected err c)
      = Emit "disconnect" [err] :: effects (close None c)
    ∧ effects (close None c) = [Bind (BClose (fd c) (KClose None))]
    ∧ fd (state (_disconnected err c)) = VNull
    ∧ thrown (_disconnected err c) = None
  else _disconnected err c = mkResult c [] None.
Proof.
  unfold _disconnected. destruct (isOpen c) eqn:E.
  - pose proof E as E'%isOpen_fd. rewrite bool_decide_eq_false_2 by done.
    unfold seq, emit, perform. simpl. unfold close. rewrite E. simpl. done.
  - unfold isOpen in E. apply negb_false_iff, bool_decide_eq_true in E.
    by rewrite bool_decide_eq_true_2.
Qed.

(** C9. [close] on an open port clears the handle before it calls the
    binding: when [close] returns, the binding's [close] has been called with
    the old handle and [isOpen] is false.  The completion function never
    changes the port, so [isOpen] stays false whatever the binding reports;
    an error goes to the callback if there is one and is emitted as [error]
    otherwise. *)
Theorem close_clears_handle c callback :
  isOpen c = true →
  effects (close callback c) = [Bind (BClose (fd c) (KClose callback))]
  ∧ thrown (close callback c) = None
  ∧ isOpen (state (close callback c)) = false
  ∧ (∀ args, state (close_done callback args (state (close callback c)))
             = state (close callback c))
  ∧ ∀ err rest, truthy err = true →
      close_done callback (err :: rest) (state (close callback c))
      = mkResult (state (close callback c)) [delivered err callback] None.
Proof.
  intros H. unfold close. rewrite H. simpl. repeat split.
  - intros args. unfold close_done. destruct (truthy (nth 0 args VUndefined)).
    + by rewrite _error_delivers.
    + by destruct callback.
  - intros err rest Ht. unfold close_done. simpl. rewrite Ht.
    apply _error_delivers.
Qed.

Lemma close_clears_handle_witness :
  isOpen (port_open exists_ 0) = true
  ∧ effects (close (Some 3%nat) (port_open exists_ 0))
    = [Bind (BClose (VNum 0) (KClose (Some 3%nat)))]
  ∧ thrown (close (Some 3%nat) (port_open exists_ 0)) = None
  ∧ isOpen (state (close (Some 3%nat) (port_open exists_ 0))) = false
  ∧ (∀ args,
       state (close_done (Some 3%nat) args (state (close (Some 3%nat) (port_open exists_ 0))))
       = state (close (Some 3%nat) (port_open exists_ 0)))
  ∧ ∀ err rest, truthy err = true →
      close_done (Some 3%nat) (err :: rest) (state (close (Some 3%nat) (port_open exists_ 0)))
      = mkResult (state (close (Some 3%nat) (port_open exists_ 0)))
                 [delivered err (Some 3%nat)] None.
Proof.
  split; [reflexivity|].
  apply (close_clears_handle (port_open exists_ 0) (Some 3%nat)). reflexivity.
Defined.

(** [_write] on a port that is not open only registers its retry. *)
Lemma write_before_open_deferred c data encoding callback :
  isOpen c = false →
  _write data encoding callback c
  = mkResult (mk (path c) (fd c) (opening c) (options c) (portReader c)
                 (onceOpen c ++ [RetryWrite data encoding callback]))
             [] None.
Proof. intros H. unfold _write. by rewrite H. Qed.

(** [_read] on a port that is not open registers its retry and goes on to
    the port reader all the same. *)
Lemma read_before_open_falls_through c bytes :
  isOpen c = false →
  _read bytes c
  = match portReader c with
    | None =>
        mkResult (mk (path c) (fd c) (opening c) (options c) None
                     (onceOpen c ++ [RetryRead bytes]))
                 [] (Some (TypeError "Cannot read property 'requestBytes' of undefined"))
    | Some _ =>
        mkResult (mk (path c) (fd c) (opening c) (options c)
                     (Some (mkReader bytes)) (onceOpen c ++ [RetryRead bytes]))
                 [RequestBytes bytes] None
    end.
Proof.
  intros H. unfold _read. rewrite H. simpl.
  unfold seq, once_open, set_onceOpen, requestBytes. simpl.
  by destruct (portReader c) eqn:E; simpl; rewrite ?E.
Qed.

(** C8, at the input where it fails: [_read(16)] on a port that was just
    constructed and is not open.  The retry is registered, and the call goes
    on at once: as the source stands it throws, because [portReader] is
    never assigned; with a port reader attached, the request reaches it
    while the port has no handle, and reaches it a second time when [open]
    completes.  [_write] in the same state only registers its retry. *)
Theorem read_before_open_not_deferred :
  SerialPort.SerialPort exists_ (Some manual) None = inr (port_on exists_, [])
  ∧ isOpen (port_on exists_) = false
  ∧ onceOpen (state (_read (VNum 16) (port_on exists_))) = [RetryRead (VNum 16)]
  ∧ thrown (_read (VNum 16) (port_on exists_))
    = Some (VError "TypeError" "Cannot read property 'requestBytes' of undefined")
  ∧ effects (_read (VNum 16) (with_reader (port_on exists_)))
    = [RequestBytes (VNum 16)]
  ∧ isOpen (state (_read (VNum 16) (with_reader (port_on exists_)))) = false
  ∧ effects (open_done None [VNull; VNum 0]
               (state (_read (VNum 16) (with_reader (port_on exists_)))))
    = [Emit "open" []; RequestBytes (VNum 16)]
  ∧ System.trace
      (System.drain_queue 4 16
         (System.invoke 16 (open None)
            (System.invoke 16 (_read (VNum 16)) (system_on exists_))))
    = [System.Uncaught
         (VError "TypeError" "Cannot read property 'requestBytes' of undefined");
       System.Bound (BOpen exists_ (options (port_on exists_)) (KOpen None));
       System.Emitted "open" [];
       System.Uncaught
         (VError "TypeError" "Cannot read property 'requestBytes' of undefined")]
  ∧ effects (_write (IsBuffer 0) VUndefined (Some 3%nat) (port_on exists_)) = [].
Proof. repeat split; vm_compute; reflexivity. Qed.

Lemma get_insert (o : object) k v : get (<[k := v]> o) k = v.
Proof. unfold get. by rewrite lookup_insert_eq. Qed.

Lemma merged_baudRate (options : option object) :
  get (assign defaultSettings options) "baudRate"
  = default (VNum 9600) (supplied options).
Proof.
  unfold assign, supplied, get. destruct options as [o|]; simpl; [|reflexivity].
  rewrite lookup_union. destruct (o !! "baudRate"); reflexivity.
Qed.

(** C10 as stated fails: on an open port, [update({baudRate: 0})] runs into
    the mock binding's "Missing baudRate" throw, and
    [update({baudRate: 'fast'})] hands the binding a [baudRate] that is not
    a number. *)
Lemma update_reaches_missing_baudRate :
  isOpen (System.ctl system_open) = true
  ∧ System.trace
      (System.invoke 16 (update (Some {[ "baudRate" := VNum 0 ]}) None) system_open)
    = System.trace system_open
        ++ [System.Bound
              (BUpdate (VNum 0)
                 (<["baudRate" := VNum 0]> (options (System.ctl system_open)))
                 (KUpdate None));
            System.Uncaught (VError "Error" "Missing baudRate")]
  ∧ System.stack
      (System.invoke 16 (update (Some {[ "baudRate" := VNum 0 ]}) None) system_open)
    = []
  ∧ (λ sent, is_number (get sent "baudRate"))
      (options (state (update (Some {[ "baudRate" := VStr "fast" ]}) None
                              (System.ctl system_open))))
    = false
  ∧ System.trace
      (System.invoke 16 (update (Some {[ "baudRate" := VNaN ]}) None) system_open)
    = System.trace system_open
        ++ [System.Bound
              (BUpdate (VNum 0)
                 (<["baudRate" := VNaN]> (options (System.ctl system_open)))
                 (KUpdate None));
            System.Uncaught (VError "Error" "Missing baudRate")].
Proof. repeat split; vm_compute; reflexivity. Qed.

(** C10, as the code has it.  [update] on an open port merges the caller's
    options over the default settings, overwrites the stored
    [options.baudRate] with the merged value, and then calls the binding's
    [update] with the handle and the stored options.  The merged value is the
    caller's [baudRate] property when the options have one, and 9600 when
    they have none.  The mock binding throws "Missing baudRate" exactly when
    that value is falsy, as 0 and [NaN] are among the numbers; when it is
    not, as for every other integer, the binding returns and queues the
    completion. *)
Theorem update_merges_defaults c (options : option object) callback :
  isOpen c = true →
  let baud := default (VNum 9600) (supplied options) in
  let sent := <["baudRate" := baud]> (SerialPort.options c) in
  update options callback c
  = mkResult (mk (path c) (fd c) (opening c) sent (portReader c) (onceOpen c))
             [Bind (BUpdate (fd c) sent (KUpdate callback))] None
  ∧ get sent "baudRate" = baud
  ∧ (supplied options = None → baud = VNum 9600)
  ∧ (∀ n, supplied options = Some (VNum n) → n ≠ 0 → baud = VNum n ∧ truthy baud = true)
  ∧ (supplied options = Some VNaN → baud = VNaN ∧ truthy baud = false)
  ∧ (truthy baud = true →
     ∀ (m : binding) cb, ∃ later,
       Mock.update m (fd c) sent cb = Mock.Returned m [] later)
  ∧ (truthy baud = false →
     ∀ (m : binding) cb,
       Mock.update m (fd c) sent cb = Mock.Thrown (Error "Missing baudRate")).
Proof.
  intros H baud sent. split; [|split; [|split; [|split; [|split; [|split]]]]].
  - unfold update. rewrite H. simpl. unfold seq, set_options, perform. simpl.
    by rewrite merged_baudRate.
  - apply get_insert.
  - intros E. unfold baud. by rewrite E.
  - intros n E Hn. unfold baud. rewrite E. simpl. split; [done|].
    apply negb_true_iff. by apply Z.eqb_neq.
  - intros E. unfold baud. by rewrite E.
  - intros Ht m cb. unfold Mock.update, Mock.callLater.
    unfold sent. rewrite get_insert, Ht. simpl.
    destruct (Mock.getPortByFD m (fd c)); eauto.
  - intros Ht m cb. unfold Mock.update. unfold sent. by rewrite get_insert, Ht.
Qed.

Lemma update_merges_defaults_witness :
  isOpen (port_open exists_ 0) = true
  ∧ update None (Some 3%nat) (port_open exists_ 0)
    = mkResult (mk exists_ (VNum 0) false
                   (<["baudRate" := VNum 9600]> (options (port_open exists_ 0)))
                   None [])
               [Bind (BUpdate (VNum 0)
                        (<["baudRate" := VNum 9600]> (options (port_open exists_ 0)))
                        (KUpdate (Some 3%nat)))] None
  ∧ ∃ later,
      Mock.update opened_locked (VNum 0)
        (<["baudRate" := VNum 9600]> (options (port_open exists_ 0)))
        (Some (KUpdate (Some 3%nat)))
      = Mock.Returned opened_locked [] later.
Proof.
  split; [reflexivity|].
  destruct (update_merges_defaults (port_open exists_ 0) None (Some 3%nat)
              ltac:(reflexivity)) as (Hu & _ & _ & _ & _ & Hok & _).
  split; [exact Hu|]. apply Hok. reflexivity.
Defined.

(** The controller on the mock binding, run: a port is opened; told of a
    disconnect; written to before it is open; closed when the binding has
    lost its handle. *)
Example system_scenarios :
  fd (System.ctl system_open) = VNum 0
  ∧ System.trace system_open
    = [System.Bound (BOpen exists_ (options (port_on exists_)) (KOpen None));
       System.Emitted "open" []]
  ∧ System.stack system_open = [] ∧ System.queue system_open = []
  ∧ (let s := System.drain_queue 4 16
                (System.invoke 16 (_disconnected (Error "disconnected")) system_open) in
     System.trace s
     = System.trace system_open
         ++ [System.Emitted "disconnect" [VError "Error" "disconnected"];
             System.Bound (BClose (VNum 0) (KClose None));
             System.Emitted "close" []]
     ∧ isOpen (System.ctl s) = false)
  ∧ (let s := System.drain_queue 4 16
                (System.invoke 16 (open None)
                   (System.invoke 16 (_write (NewBuffer [x01; x02]) VUndefined (Some 3%nat))
                      (system_on exists_))) in
     System.trace s
     = [System.Bound (BOpen exists_ (options (port_on exists_)) (KOpen None));
        System.Emitted "open" [];
        System.Bound (BWrite (VNum 0) (NewBuffer [x01; x02]) (Some (KUser 3%nat)));
        System.Called 3%nat [VNull; VNum 2]]
     ∧ System.stack s = [] ∧ System.queue s = [])
  ∧ (let lost := System.mkSys (System.ctl system_open)
                   (Mock.reset (System.bnd system_open)) [] [] [] in
     let s := System.invoke 16 (close None) lost in
     isOpen (System.ctl s) = false
     ∧ System.stack s = []
     ∧ System.queue s
       = [(Some (KClose None), [VError "Error" "0 fd is already closed"])]
     ∧ System.trace (System.drain_queue 4 16 s)
       = [System.Bound (BClose (VNum 0) (KClose None));
          System.Emitted "error" [VError "Error" "0 fd is already closed"]]
     ∧ isOpen (System.ctl (System.drain_queue 4 16 s)) = false).
Proof. repeat split; vm_compute; reflexivity. Qed.

End ControllerFacts.

(** * Further properties of the mock binding *)

Section MockMore.

Context {CB : Type}.
Implicit Types (m : @Mock.state CB) (p : @Mock.port CB).

(** What every function that takes a handle does with one that has no
    entry. *)
Lemma invalid_handle_rejected m fd buffer (opt : object) (cb : option CB) :
  Mock.getPortByFD m fd = None →
  Mock.rejected m cb (Mock.close m fd cb)
  ∧ (truthy (get opt "baudRate") = true → Mock.rejected m cb (Mock.update m fd opt cb))
  ∧ Mock.rejected m cb (Mock.write m fd buffer cb)
  ∧ Mock.rejected m cb (Mock.flush m fd cb)
  ∧ Mock.rejected m cb (Mock.set m fd opt cb)
  ∧ Mock.rejected m cb (Mock.drain m fd cb).
Proof.
  intros H. unfold Mock.rejected, Mock.close, Mock.update, Mock.write, Mock.flush,
    Mock.set, Mock.drain, Mock.callLater, Mock.MissingPortError, Error.
  rewrite H. repeat split; eauto. intros ->. simpl. eauto.
Qed.

Lemma retired_evolves m m' n :
  Mock.retired m n → Mock.evolves m m' → Mock.retired m' n.
Proof.
  intros Hr. induction 1 as
    [ | m1 path _ IH | m1 path opt cb m' now later _ IH E
    | m1 fd cb m' now later _ IH E | m1 fd opt cb m' now later _ IH E
    | m1 fd buffer cb m' now later _ IH E | m1 fd cb m' now later _ IH E
    | m1 fd options cb m' now later _ IH E | m1 fd cb m' now later _ IH E
    | m1 cb m' now later _ IH E | m1 path bytes m' now later _ IH E
    | m1 fd cb m' now later _ IH E | m1 bytes _ IH | m1 buffer i v _ IH ];
    try done.
  - destruct IH as [Hlt Hnone]. unfold Mock.open, Mock.call, Mock.callLater in E.
    destruct (Mock.getPortByPath m1 path) as [[r p]|].
    2:{ destruct (inherited path); [done|]. destruct cb; [|done]. by injection E as <- _ _. }
    destruct (Mock.lock_held p) as [[]|]; [|injection E as <- _ _|done].
    { destruct cb; [|done]. by injection E as <- _ _. }
    split; simpl; [lia|]. rewrite lookup_insert_ne; [done|lia].
  - destruct IH as [Hlt Hnone]. unfold Mock.close, Mock.callLater in E.
    destruct (Mock.getPortByFD m1 fd) as [[r p]|]; [|by injection E as <- _ _].
    destruct fd; try by injection E as <- _ _.
    injection E as <- _ _. split; simpl; [done|].
    destruct (decide (n0 = n)) as [->|Hne];
      [apply lookup_delete_eq|by rewrite lookup_delete_ne].
  - by rewrite (update_state _ _ _ _ _ _ _ E).
  - destruct IH as [Hlt Hnone]. unfold Mock.write, Mock.callLater in E.
    destruct (Mock.getPortByFD m1 fd) as [[r p]|]; [|by injection E as <- _ _].
    destruct (Mock.bufs m1 !! buffer); [|done]. by injection E as <- _ _.
  - by rewrite (flush_state _ _ _ _ _ _ E).
  - by rewrite (set_state _ _ _ _ _ _ _ E).
  - by rewrite (drain_state _ _ _ _ _ _ E).
  - unfold Mock.list, Mock.callLater in E. by injection E as <- _ _.
  - unfold Mock.emitData in E.
    destruct (Mock.getPortByPath m1 path) as [[r p]|]; [|done].
    by destruct (Mock.poller p); injection E as <- _ _.
  - unfold Mock.Poller in E.
    destruct (Mock.getPortByFD m1 fd) as [[r p]|]; [|done].
    by injection E as <- _ _.
Qed.

(** X1. Handles are not reused.  When a handle with an entry is closed, the
    close succeeds, and in every later state of the binding (as long as it
    is not reset) the handle has no entry: [close], [update], [write],
    [flush], [set] and [drain] on it leave the binding unchanged and queue
    the callback with an error. *)
Theorem mock_closed_handle_stays_invalid m n (cb : option CB) :
  Mock.wf m →
  is_Some (Mock.getPortByFD m (VNum n)) →
  ∃ m1,
    Mock.close m (VNum n) cb = Mock.Returned m1 [] [(cb, [VNull])]
    ∧ ∀ m2, Mock.evolves m1 m2 →
        Mock.getPortByFD m2 (VNum n) = None
        ∧ ∀ buffer (opt : object) (cb' : option CB),
            Mock.rejected m2 cb' (Mock.close m2 (VNum n) cb')
            ∧ (truthy (get opt "baudRate") = true
               → Mock.rejected m2 cb' (Mock.update m2 (VNum n) opt cb'))
            ∧ Mock.rejected m2 cb' (Mock.write m2 (VNum n) buffer cb')
            ∧ Mock.rejected m2 cb' (Mock.flush m2 (VNum n) cb')
            ∧ Mock.rejected m2 cb' (Mock.set m2 (VNum n) opt cb')
            ∧ Mock.rejected m2 cb' (Mock.drain m2 (VNum n) cb').
Proof.
  intros Hwf [[r p] Hg].
  pose proof Hg as (n' & [= <-] & Hn & Ho)%getPortByFD_Some.
  destruct (Mock.wf_fds m Hwf _ _ Hn) as [Hlt _].
  eexists. split; [unfold Mock.close; rewrite Hg; reflexivity|].
  intros m2 Hev.
  assert (Mock.retired m2 n) as [_ Hnone].
  { eapply retired_evolves; [|exact Hev]. split; simpl; [done|apply lookup_delete_eq]. }
  assert (Mock.getPortByFD m2 (VNum n) = None) as Hinv.
  { unfold Mock.getPortByFD. by rewrite Hnone. }
  split; [done|]. intros. by apply invalid_handle_rejected.
Qed.

Lemma filter_out_last (l : list Z) n :
  n ∉ l → filter (λ item, item ≠ n) (l ++ [n]) = l.
Proof.
  intros Hn. rewrite filter_app.
  rewrite (filter_cons_False (λ item, item ≠ n) n []) by (intros H; by apply H).
  rewrite filter_nil, app_nil_r.
  induction l as [|x l IH]; [done|].
  apply not_elem_of_cons in Hn as [Hx Hl].
  rewrite filter_cons_True by congruence. by rewrite IH.
Qed.

(** The state after an [open] that succeeded on the entry [p] at [r] and a
    [close] of the handle it gave out. *)
Lemma open_then_close m path opt (cb cb' : option CB) r p :
  Mock.wf m →
  Mock.getPortByPath m path = Some (r, p) →
  Mock.lock_held p = Some false →
  ∃ m1,
    Mock.open m path opt cb
    = Mock.Returned m1 [] [(cb, [VNull; VNum (Mock.nextFd m)])]
    ∧ Mock.close m1 (VNum (Mock.nextFd m)) cb'
      = Mock.Returned
          (Mock.mkState (Mock.nextFd m + 1) (Mock.fds m) (Mock.ports m)
             (<[r := Mock.set_openOpt p opt]> (Mock.objs m)) (Mock.bufs m))
          [] [(cb', [VNull])].
Proof.
  intros Hwf Hg Hl.
  pose proof Hg as [Hp Ho]%getPortByPath_Some.
  destruct (Mock.wf_ports m Hwf _ _ Hp) as (p0 & Hr & Hall & _).
  assert (p0 = p) as -> by congruence.
  pose proof (wf_fresh m (Mock.nextFd m) Hwf ltac:(lia)) as Hfresh.
  assert (Mock.nextFd m ∉ Mock.port_fds p) as Hnin.
  { intros Hin. apply Hall in Hin. congruence. }
  assert (r < length (Mock.objs m))%nat by by eapply lookup_lt_Some.
  eexists. split; [by apply open_unlocked|].
  unfold Mock.close, Mock.getPortByFD. simpl.
  rewrite lookup_insert_eq. simpl. rewrite list_lookup_insert_eq by done. simpl.
  unfold Mock.callLater. f_equal. unfold Mock.set_port_fds. simpl.
  rewrite filter_out_last by done.
  rewrite delete_insert_eq, list_insert_insert_eq.
  rewrite delete_id by done. by destruct p.
Qed.

(** X2. Open and close undo each other on the registry.  When [open]
    succeeds on a path and the handle it gave out is closed, the handle table
    and the registry are as before and the entry has the handles, inbound
    data and last write it had; what remains is that the counter has moved on
    by one (the next handle is a new one) and that the entry's recorded
    options are those of this open. *)
Theorem mock_open_close_roundtrip m path opt (cb cb' : option CB) r p :
  Mock.wf m →
  Mock.getPortByPath m path = Some (r, p) →
  Mock.lock_held p = Some false →
  ∃ m1 m2,
    Mock.open m path opt cb
    = Mock.Returned m1 [] [(cb, [VNull; VNum (Mock.nextFd m)])]
    ∧ Mock.close m1 (VNum (Mock.nextFd m)) cb' = Mock.Returned m2 [] [(cb', [VNull])]
    ∧ Mock.fds m2 = Mock.fds m
    ∧ Mock.ports m2 = Mock.ports m
    ∧ Mock.nextFd m2 = Mock.nextFd m + 1
    ∧ Mock.getPortByPath m2 path
      = Some (r, Mock.mkPort (Mock.data p) (Mock.lastWrite p) (Mock.poller p)
                   (Mock.info p) (Mock.port_fds p) (Some opt))
    ∧ Mock.wf m2.
Proof.
  intros Hwf Hg Hl.
  destruct (open_then_close m path opt cb cb' r p Hwf Hg Hl) as (m1 & Hopen & Hclose).
  pose proof Hg as [Hp Ho]%getPortByPath_Some.
  assert (r < length (Mock.objs m))%nat by by eapply lookup_lt_Some.
  eexists m1, _. split; [exact Hopen|]. split; [exact Hclose|].
  split; [done|]. split; [done|]. split; [done|]. split.
  - unfold Mock.getPortByPath. simpl. rewrite Hp. simpl.
    by rewrite list_lookup_insert_eq.
  - eapply wf_close; [|exact Hclose]. by eapply wf_open.
Qed.

(** X3. A path is locked while its handle is held and free once the handle
    is released.  When the entry of a path has exactly one handle, recorded
    with a lock that is true, [open] is refused with "port is locked cannot
    open"; after that handle is closed, [open] on the path succeeds. *)
Theorem mock_locked_until_released m path opt (cb cb' : option CB) f r p n :
  Mock.wf m →
  Mock.getPortByPath m path = Some (r, p) →
  Mock.port_fds p = [n] →
  Mock.recorded_lock p = true →
  Mock.open m path opt (Some f)
  = Mock.Returned m [(f, [Error "port is locked cannot open"])] []
  ∧ ∃ m1 m2,
      Mock.close m (VNum n) cb = Mock.Returned m1 [] [(cb, [VNull])]
      ∧ Mock.open m1 path opt cb'
        = Mock.Returned m2 [] [(cb', [VNull; VNum (Mock.nextFd m)])].
Proof.
  intros Hwf Hg Hfds Hrec.
  pose proof Hg as [Hp Ho]%getPortByPath_Some.
  destruct (Mock.wf_ports m Hwf _ _ Hp) as (p0 & Hr & Hall & Hopt).
  assert (p0 = p) as -> by congruence.
  assert (r < length (Mock.objs m))%nat by by eapply lookup_lt_Some.
  split.
  - unfold Mock.open. rewrite Hg, lock_held_spec, Hrec by done.
    rewrite bool_decide_eq_true_2; [done|]. by rewrite Hfds.
  - assert (Mock.fds m !! n = Some r) as Hn.
    { apply Hall. rewrite Hfds. by apply list_elem_of_singleton. }
    assert (Mock.getPortByFD m (VNum n) = Some (r, p)) as Hgf.
    { apply getPortByFD_Some. eauto. }
    eexists _, _. split; [unfold Mock.close; rewrite Hgf; reflexivity|].
    match goal with |- Mock.open ?s _ _ _ = _ => set (m1 := s) end.
    assert (Mock.getPortByPath m1 path
            = Some (r, Mock.set_port_fds p
                         (filter (λ item, item ≠ n) (Mock.port_fds p)))) as Hg1.
    { unfold Mock.getPortByPath. simpl. rewrite Hp. simpl.
      by rewrite list_lookup_insert_eq. }
    rewrite (open_unlocked m1 path opt cb' _ _ Hg1); [reflexivity|].
    unfold Mock.lock_held. simpl. rewrite Hfds.
    rewrite filter_cons_False by (intros H'; by apply H'). done.
Qed.

(** X4. The recorded lock outlives its handle.  A path is held by a handle
    recorded without lock; a second open with [lock] true succeeds and its
    handle is closed again.  The entry then has the handles it had before,
    but the recorded options are still those of the second open: every
    further [open] of the path is refused with "port is locked cannot
    open". *)
Theorem mock_lock_outlives_handle m path (opt : object) (cb cb' : option CB) r p fd1 :
  Mock.wf m →
  Mock.getPortByPath m path = Some (r, p) →
  fd1 ∈ Mock.port_fds p →
  Mock.recorded_lock p = false →
  truthy (get opt "lock") = true →
  ∃ m1 m2 p2,
    Mock.open m path opt cb
    = Mock.Returned m1 [] [(cb, [VNull; VNum (Mock.nextFd m)])]
    ∧ Mock.close m1 (VNum (Mock.nextFd m)) cb' = Mock.Returned m2 [] [(cb', [VNull])]
    ∧ Mock.getPortByPath m2 path = Some (r, p2)
    ∧ Mock.port_fds p2 = Mock.port_fds p
    ∧ ∀ opt' f,
        Mock.open m2 path opt' (Some f)
        = Mock.Returned m2 [(f, [Error "port is locked cannot open"])] [].
Proof.
  intros Hwf Hg Hin Hrec Hlock.
  pose proof Hg as [Hp Ho]%getPortByPath_Some.
  destruct (Mock.wf_ports m Hwf _ _ Hp) as (p0 & Hr & Hall & Hopt).
  assert (p0 = p) as -> by congruence.
  assert (Mock.lock_held p = Some false) as Hl.
  { rewrite lock_held_spec, Hrec by done. by rewrite andb_false_r. }
  destruct (open_then_close m path opt cb cb' r p Hwf Hg Hl) as (m1 & Hopen & Hclose).
  assert (r < length (Mock.objs m))%nat by by eapply lookup_lt_Some.
  eexists m1, _, (Mock.set_openOpt p opt).
  split; [exact Hopen|]. split; [exact Hclose|].
  assert (Mock.getPortByPath
            (Mock.mkState (Mock.nextFd m + 1) (Mock.fds m) (Mock.ports m)
               (<[r:=Mock.set_openOpt p opt]> (Mock.objs m)) (Mock.bufs m)) path
          = Some (r, Mock.set_openOpt p opt)) as Hg2.
  { unfold Mock.getPortByPath. simpl. rewrite Hp. simpl.
    by rewrite list_lookup_insert_eq. }
  split; [exact Hg2|]. split; [done|].
  intros opt' f. unfold Mock.open. rewrite Hg2.
  unfold Mock.lock_held. simpl.
  destruct (Mock.port_fds p) as [|x l]; [by apply elem_of_nil in Hin|].
  by rewrite Hlock.
Qed.

(** [open] right after [createPort] succeeds with the next handle. *)
Lemma mock_createPort_fresh_aux m path opt (cb : option CB) :
  ∃ m', Mock.open (Mock.createPort m path) path opt cb
        = Mock.Returned m' [] [(cb, [VNull; VNum (Mock.nextFd m)])].
Proof.
  assert (Mock.getPortByPath (Mock.createPort m path) path
          = Some (length (Mock.objs m),
                  Mock.mkPort [] None None (Mock.info_of path) [] None)) as Hg.
  { unfold Mock.getPortByPath. simpl. rewrite lookup_insert_eq. simpl.
    by rewrite list_lookup_middle. }
  eexists. by rewrite (open_unlocked _ _ opt cb _ _ Hg).
Qed.

(** X5. Registering a path again, in a registry without an entry under
    [__proto__] and for a path other than [__proto__].  [createPort] gives
    the path a new entry
    without handles, inbound data, last write or recorded options, on which
    [open] succeeds at once whatever was recorded before; the other paths
    keep their entries, and every handle keeps the entry it was opened on,
    also the handles of an entry that was replaced. *)
Theorem mock_createPort_fresh m path :
  Mock.wf m → Mock.plain m → path ≠ "__proto__" →
  Mock.getPortByPath (Mock.createPort m path) path
  = Some (length (Mock.objs m),
          Mock.mkPort [] None None (Mock.info_of path) [] None)
  ∧ (∀ path', path' ≠ path →
       Mock.getPortByPath (Mock.createPort m path) path' = Mock.getPortByPath m path')
  ∧ (∀ fd, Mock.getPortByFD (Mock.createPort m path) fd = Mock.getPortByFD m fd)
  ∧ ∀ opt (cb : option CB), ∃ m',
      Mock.open (Mock.createPort m path) path opt cb
      = Mock.Returned m' [] [(cb, [VNull; VNum (Mock.nextFd m)])].
Proof.
  intros Hwf _ _.
  assert (Mock.getPortByPath (Mock.createPort m path) path
          = Some (length (Mock.objs m),
                  Mock.mkPort [] None None (Mock.info_of path) [] None)) as Hg.
  { unfold Mock.getPortByPath. simpl. rewrite lookup_insert_eq. simpl.
    by rewrite list_lookup_middle. }
  split; [exact Hg|]. split; [|split].
  - intros path' Hne. unfold Mock.getPortByPath. simpl.
    rewrite lookup_insert_ne by done.
    destruct (Mock.ports m !! path') as [r|] eqn:E; [|done]. simpl.
    destruct (Mock.wf_ports m Hwf _ _ E) as (p & Hr & _).
    rewrite lookup_app_l; [done|]. by eapply lookup_lt_Some.
  - intros fd. unfold Mock.getPortByFD. destruct fd; try done. simpl.
    destruct (Mock.fds m !! n) as [r|] eqn:E; [|done]. simpl.
    destruct (Mock.wf_fds m Hwf _ _ E) as (_ & p & Hr & _).
    rewrite lookup_app_l; [done|]. by eapply lookup_lt_Some.
  - intros opt cb. eexists. by rewrite (open_unlocked _ _ opt cb _ _ Hg).
Qed.

(** X6. [reset] forgets everything and restarts the numbering: after it,
    [open] of any path that is not the name of an inherited property gives
    the callback a [MissingPortError], no handle number has an entry, and the
    first handle given out after a path (other than [__proto__]) is
    registered again is 0. *)
Theorem mock_reset_forgets m :
  (∀ path opt f, inherited path = false →
     Mock.open (Mock.reset m) path opt (Some f)
     = Mock.Returned (Mock.reset m) [(f, [Mock.MissingPortError (Some path)])] [])
  ∧ (∀ n, Mock.getPortByFD (Mock.reset m) (VNum n) = None)
  ∧ (∀ n (cb : option CB),
       Mock.rejected (Mock.reset m) cb (Mock.close (Mock.reset m) (VNum n) cb))
  ∧ ∀ path opt (cb : option CB), path ≠ "__proto__" → ∃ m',
      Mock.open (Mock.createPort (Mock.reset m) path) path opt cb
      = Mock.Returned m' [] [(cb, [VNull; VNum 0])].
Proof.
  assert (∀ n, Mock.getPortByFD (Mock.reset m) (VNum n) = None) as Hnone.
  { intros n. unfold Mock.getPortByFD. simpl. by rewrite lookup_empty. }
  split; [|split; [done|split]].
  - intros path opt f Hinh. unfold Mock.open, Mock.getPortByPath. simpl.
    rewrite lookup_empty. simpl. by rewrite Hinh.
  - intros n cb.
    by destruct (invalid_handle_rejected (Mock.reset m) (VNum n) 0%nat ∅ cb (Hnone n)).
  - intros path opt cb _.
    destruct (mock_createPort_fresh_aux (Mock.reset m) path opt cb) as [m' H].
    by exists m'.
Qed.

Lemma named_set_obj m r p p' b n f :
  Mock.named m → Mock.objs m !! r = Some p → Mock.info p' = Mock.info p →
  Mock.named (Mock.mkState n f (Mock.ports m) (<[r := p']> (Mock.objs m)) b).
Proof.
  intros Hn Ho Hi path r0 p0. simpl. intros Hp H0.
  assert (r < length (Mock.objs m))%nat by by eapply lookup_lt_Some.
  destruct (decide (r = r0)) as [<-|Hne].
  - rewrite list_lookup_insert_eq in H0 by done. injection H0 as <-.
    rewrite Hi. by eapply Hn.
  - rewrite list_lookup_insert_ne in H0 by done. by eapply Hn.
Qed.

(** In a binding in use, every entry carries the record of its path. *)
Lemma reachable_named m : Mock.reachable m → Mock.named m.
Proof.
  induction 1 as
    [ | m _ IH | m path Hm IH | m path opt cb m' now later _ IH E
    | m fd cb m' now later _ IH E | m fd opt cb m' now later _ IH E
    | m fd buffer cb m' now later _ IH E | m fd cb m' now later _ IH E
    | m fd options cb m' now later _ IH E | m fd cb m' now later _ IH E
    | m cb m' now later _ IH E | m path bytes m' now later _ IH E
    | m fd cb m' now later _ IH E | m bytes _ IH | m buffer i v _ IH ];
    try done.
  - apply reachable_wf in Hm. intros path' r p. simpl.
    destruct (decide (path = path')) as [<-|Hne].
    + rewrite lookup_insert_eq. intros [= <-].
      rewrite list_lookup_middle by done. by intros [= <-].
    + rewrite lookup_insert_ne by done. intros Hp Ho.
      destruct (Mock.wf_ports m Hm _ _ Hp) as (p0 & Hr & _).
      rewrite lookup_app_l in Ho by by eapply lookup_lt_Some.
      by eapply IH.
  - unfold Mock.open, Mock.call, Mock.callLater in E.
    destruct (Mock.getPortByPath m path) as [[r p]|] eqn:Hg.
    2:{ destruct (inherited path); [done|]. destruct cb; [|done]. by injection E as <- _ _. }
    destruct (Mock.lock_held p) as [[]|]; [|injection E as <- _ _|done].
    { destruct cb; [|done]. by injection E as <- _ _. }
    apply getPortByPath_Some in Hg as [_ Ho]. by eapply named_set_obj.
  - unfold Mock.close, Mock.callLater in E.
    destruct (Mock.getPortByFD m fd) as [[r p]|] eqn:Hg; [|by injection E as <- _ _].
    destruct fd; try by injection E as <- _ _.
    apply getPortByFD_Some in Hg as (? & _ & _ & Ho).
    injection E as <- _ _. by eapply named_set_obj.
  - by rewrite (update_state _ _ _ _ _ _ _ E).
  - unfold Mock.write, Mock.callLater in E.
    destruct (Mock.getPortByFD m fd) as [[r p]|] eqn:Hg; [|by injection E as <- _ _].
    apply getPortByFD_Some in Hg as (? & _ & _ & Ho).
    destruct (Mock.bufs m !! buffer); [|done].
    injection E as <- _ _. by eapply named_set_obj.
  - by rewrite (flush_state _ _ _ _ _ _ E).
  - by rewrite (set_state _ _ _ _ _ _ _ E).
  - by rewrite (drain_state _ _ _ _ _ _ E).
  - unfold Mock.list, Mock.callLater in E. by injection E as <- _ _.
  - unfold Mock.emitData in E.
    destruct (Mock.getPortByPath m path) as [[r p]|] eqn:Hg; [|done].
    apply getPortByPath_Some in Hg as [_ Ho].
    assert (m' = Mock.set_obj m r (Mock.set_data p (Mock.data p ++ bytes))) as ->
      by (destruct (Mock.poller p); by injection E as <- _ _).
    by eapply named_set_obj.
  - unfold Mock.Poller in E.
    destruct (Mock.getPortByFD m fd) as [[r p]|] eqn:Hg; [|done].
    apply getPortByFD_Some in Hg as (? & _ & _ & Ho).
    injection E as <- _ _. by eapply named_set_obj.
Qed.


(** X9. The poller of an entry.  [new Poller(fd, cb)] on a handle with an
    entry registers [cb] with the entry, and every [emitData] on the entry's
    path then calls [cb], without arguments, before it returns; a second
    poller on the entry replaces the first, which is not called any more.
    On a handle without an entry the constructor throws a
    [MissingPortError]. *)
Theorem mock_poller_notified m fd path r p (c1 c2 : CB) bytes :
  Mock.getPortByFD m fd = Some (r, p) →
  Mock.ports m !! path = Some r →
  (∃ m1 m2 m3 m4,
     Mock.Poller m fd c1 = Mock.Returned m1 [] []
     ∧ Mock.emitData m1 path bytes = Mock.Returned m2 [(c1, [])] []
     ∧ Mock.Poller m2 fd c2 = Mock.Returned m3 [] []
     ∧ Mock.emitData m3 path bytes = Mock.Returned m4 [(c2, [])] [])
  ∧ ∀ fd', Mock.getPortByFD m fd' = None →
      Mock.Poller m fd' c1 = Mock.Thrown (Mock.MissingPortError None).
Proof.
  intros Hg Hp.
  pose proof Hg as (n & -> & Hn & Ho)%getPortByFD_Some.
  assert (r < length (Mock.objs m))%nat by by eapply lookup_lt_Some.
  assert (∀ (objs : list (@Mock.port CB)) q, objs !! r = Some q →
            ∀ c, Mock.Poller
                   (Mock.mkState (Mock.nextFd m) (Mock.fds m) (Mock.ports m) objs
                      (Mock.bufs m)) (VNum n) c
                 = Mock.Returned
                     (Mock.mkState (Mock.nextFd m) (Mock.fds m) (Mock.ports m)
                        (<[r := Mock.set_poller q c]> objs) (Mock.bufs m)) [] [])
    as HP.
  { intros objs q Hq c. unfold Mock.Poller, Mock.getPortByFD. simpl.
    rewrite Hn. simpl. by rewrite Hq. }
  assert (∀ (objs : list (@Mock.port CB)) q c,
            objs !! r = Some q → Mock.poller q = Some c →
            Mock.emitData
              (Mock.mkState (Mock.nextFd m) (Mock.fds m) (Mock.ports m) objs
                 (Mock.bufs m)) path bytes
            = Mock.Returned
                (Mock.mkState (Mock.nextFd m) (Mock.fds m) (Mock.ports m)
                   (<[r := Mock.set_data q (Mock.data q ++ bytes)]> objs)
                   (Mock.bufs m)) [(c, [])] [])
    as HE.
  { intros objs q c Hq Hc. unfold Mock.emitData, Mock.getPortByPath. simpl.
    rewrite Hp. simpl. rewrite Hq. simpl. by rewrite Hc. }
  split.
  - eexists _, _, _, _.
    split; [unfold Mock.Poller; rewrite Hg; reflexivity|].
    unfold Mock.set_obj.
    split; [by eapply HE; [apply list_lookup_insert_eq|]|].
    split; [by eapply HP; apply list_lookup_insert_eq; rewrite length_insert|].
    eapply HE; [apply list_lookup_insert_eq; by rewrite !length_insert|done].
  - intros fd' Hnone. unfold Mock.Poller. by rewrite Hnone.
Qed.

(** X10. [disconnect] notifies the latest opener.  After an [open] that
    succeeded on a path, [disconnect] of the path calls, before it returns,
    the [disconnectedCallback] of the options of that open with the error
    "disconnected", and leaves the binding as it is (the handles stay open);
    it throws when those options have no such function.  On a path that was
    registered and never opened it throws as well. *)
Theorem mock_disconnect_latest_opener (fn_of : value → option CB) m path r p
    (opt : object) (cb : option CB) :
  Mock.getPortByPath m path = Some (r, p) →
  Mock.lock_held p = Some false →
  (∃ m1,
     Mock.open m path opt cb
     = Mock.Returned m1 [] [(cb, [VNull; VNum (Mock.nextFd m)])]
     ∧ Mock.disconnect fn_of m1 path
       = match fn_of (get opt "disconnectedCallback") with
         | Some f => Mock.Returned m1 [(f, [Error "disconnected"])] []
         | None =>
             Mock.Thrown
               (TypeError "port.openOpt.disconnectedCallback is not a function")
         end)
  ∧ ∀ path',
      Mock.disconnect fn_of (Mock.createPort m path') path'
      = Mock.Thrown
          (TypeError "Cannot read property 'disconnectedCallback' of undefined").
Proof.
  intros Hg Hl. pose proof Hg as [Hp Ho]%getPortByPath_Some.
  assert (r < length (Mock.objs m))%nat by by eapply lookup_lt_Some.
  split.
  - eexists. split; [by apply open_unlocked|].
    unfold Mock.disconnect, Mock.getPortByPath. simpl. rewrite Hp. simpl.
    rewrite list_lookup_insert_eq by done. simpl. done.
  - intros path'. unfold Mock.disconnect, Mock.getPortByPath. simpl.
    rewrite lookup_insert_eq. simpl. by rewrite list_lookup_middle.
Qed.

End MockMore.

(** * Further properties of the port controller *)

Section ControllerMore.

Import SerialPort Scenario.

Implicit Types (c : SerialPort.t) (callback : option fn).

(** X11. The constructor validates before it builds.  It returns a port
    exactly when the path is not empty and the merged settings have a numeric
    [baudRate], [dataBits], [stopBits] and [parity] from the legal sets and
    boolean flow-control flags; otherwise it throws a [TypeError].  The port
    it returns is closed, is not opening and holds the merged settings;
    construction never calls the binding: its only effect is to schedule
    [open] with the callback for the next tick when [autoOpen] is set. *)
Theorem constructor_validates path (options : option object) callback :
  match SerialPort.SerialPort path options callback with
  | inl e =>
      ¬ validated path (assign defaultSettings options)
      ∧ ∃ message, e = TypeError message
  | inr (c, effs) =>
      validated path (assign defaultSettings options)
      ∧ c = mk path VNull false (assign defaultSettings options) None []
      ∧ effs = (if truthy (get (assign defaultSettings options) "autoOpen")
                then [NextTick (KBoundOpen callback)] else [])
  end.
Proof.
  unfold SerialPort.SerialPort, validated.
  set (settings := assign defaultSettings options).
  destruct (String.eqb_spec path EmptyString) as [->|Hpath].
  { split; [by intros [? _]|eauto]. }
  destruct (is_number (get settings "baudRate")) eqn:Hb; simpl.
  2:{ split; [by intros (_ & ? & _)|eauto]. }
  case_bool_decide as Hd; simpl.
  2:{ split; [by intros (_ & _ & ? & _)|eauto]. }
  case_bool_decide as Hs; simpl.
  2:{ split; [by intros (_ & _ & _ & ? & _)|eauto]. }
  case_bool_decide as Hp; simpl.
  2:{ split; [by intros (_ & _ & _ & _ & ? & _)|eauto]. }
  destruct (filter _ FLOWCONTROLS) as [|control rest] eqn:F.
  - split; [|done]. repeat (split; [done|]).
    intros control Hin.
    destruct (is_boolean (get settings control)) eqn:E; [done|].
    by destruct (filter_nil_not_elem_of _ _ control F E).
  - split; [|eauto]. intros (_ & _ & _ & _ & _ & Hall).
    assert (control ∈ filter (λ control, is_boolean (get settings control) = false)
                         FLOWCONTROLS) as [Hf Hin]%list_elem_of_filter
      by (rewrite F; apply list_elem_of_here).
    apply Hall in Hin. congruence.
Qed.

(** X14. The life cycle of a port.  From a closed, idle port: [open] calls
    the binding and sets the guard; when the binding hands over a handle the
    port is open, the guard is cleared, [open] is emitted and then the
    callback is called; a further [open] is refused with "Port is already
    open"; [close] calls the binding with that handle; and when the binding
    reports success, [close] is emitted, the callback is called, and the port
    is exactly as it was at the start, so it can be opened again. *)
Theorem port_lifecycle c callback (handle : value) rest :
  isOpen c = false → opening c = false → onceOpen c = [] → handle ≠ VNull →
  let c1 := state (open callback c) in
  let c2 := state (open_done callback (VNull :: handle :: rest) c1) in
  let c3 := state (close callback c2) in
  let c4 := state (close_done callback [VNull] c3) in
  open callback c
  = mkResult c1 [Bind (BOpen (path c) (options c) (KOpen callback))] None
  ∧ isOpen c1 = false ∧ opening c1 = true
  ∧ open_done callback (VNull :: handle :: rest) c1
    = mkResult c2 (Emit "open" []
                     :: match callback with Some f => [Call f [VNull]] | None => [] end)
               None
  ∧ isOpen c2 = true ∧ opening c2 = false ∧ fd c2 = handle
  ∧ open callback c2
    = mkResult c2 [delivered (Error "Port is already open") callback] None
  ∧ close callback c2
    = mkResult c3 [Bind (BClose handle (KClose callback))] None
  ∧ close_done callback [VNull] c3
    = mkResult c4 (Emit "close" []
                     :: match callback with Some f => [Call f [VNull]] | None => [] end)
               None
  ∧ c4 = c.
Proof.
  intros Hopen Hopening Honce Hh.
  assert (fd c = VNull) as Hfd.
  { destruct (decide (fd c = VNull)) as [|Hne]; [done|].
    apply isOpen_fd in Hne. congruence. }
  destruct c as [pa f o op pr on]. simpl in *. subst.
  assert (bool_decide (handle = VNull) = false) as Hb by by apply bool_decide_eq_false_2.
  unfold open, open_done, close, close_done, isOpen. simpl.
  unfold seq, emit_open, emit, perform, set_fd, set_opening, call_if, skip. simpl.
  rewrite ?Hb. simpl.
  destruct callback; simpl; rewrite ?Hb; simpl; repeat split; reflexivity.
Qed.

Lemma writes_closed ws c :
  isOpen c = false →
  writes ws c
  = mkResult (mk (path c) (fd c) (opening c) (options c) (portReader c)
                 (onceOpen c ++ ((λ w, RetryWrite w.1.1 w.1.2 w.2) <$> ws)))
             [] None.
Proof.
  revert c. induction ws as [|[[d e] cb] ws IH]; intros c H.
  - unfold writes. simpl. rewrite app_nil_r. by destruct c.
  - unfold writes in *. simpl. unfold seq at 1.
    rewrite write_before_open_deferred by done. simpl.
    rewrite IH by done. simpl. rewrite <- app_assoc. reflexivity.
Qed.

Lemma seq_eq (a b : M) c r :
  a c = r → thrown r = None →
  seq a b c
  = mkResult (state (b (state r))) (effects r ++ effects (b (state r)))
             (thrown (b (state r))).
Proof. intros <- H. unfold seq. by rewrite H. Qed.

Lemma _write_open data encoding callback c :
  isOpen c = true →
  _write data encoding callback c
  = mkResult c [Bind (BWrite (fd c) data (KUser <$> callback))] None.
Proof. intros H. unfold _write. by rewrite H. Qed.

Lemma run_once_writes ws c more :
  isOpen c = true →
  onceOpen c = ((λ w, RetryWrite w.1.1 w.1.2 w.2) <$> ws) ++ more →
  run_once ((λ w : chunk * value * option fn, RetryWrite w.1.1 w.1.2 w.2) <$> ws) c
  = mkResult (mk (path c) (fd c) (opening c) (options c) (portReader c) more)
             ((λ w, Bind (BWrite (fd c) w.1.1 (KUser <$> w.2))) <$> ws) None.
Proof.
  revert c. induction ws as [|[[d e] cb] ws IH]; intros c H Ho.
  - simpl in *. unfold skip. destruct c. simpl in *. by subst.
  - rewrite !fmap_cons. cbn [run_once run_listener fst snd].
    erewrite seq_eq; [|reflexivity|reflexivity]. cbn [state effects].
    erewrite seq_eq; [|by apply _write_open|reflexivity]. cbn [state effects].
    rewrite IH; [|exact H|simpl; by rewrite Ho]. reflexivity.
Qed.

Lemma open_done_pending c (ws : list (chunk * value * option fn)) callback
    (handle : value) rest :
  handle ≠ VNull →
  onceOpen c = (λ w, RetryWrite w.1.1 w.1.2 w.2) <$> ws →
  open_done callback (VNull :: handle :: rest) c
  = mkResult (mk (path c) handle false (options c) (portReader c) [])
             (Emit "open" []
                :: ((λ w, Bind (BWrite handle w.1.1 (KUser <$> w.2))) <$> ws)
                ++ match callback with Some f => [Call f [VNull]] | None => [] end)
             None.
Proof.
  intros Hh Ho.
  assert (bool_decide (handle = VNull) = false) as Hb by by apply bool_decide_eq_false_2.
  set (c' := mk (path c) handle false (options c) (portReader c) (onceOpen c)).
  assert (emit_open c'
          = mkResult (mk (path c) handle false (options c) (portReader c) [])
              (Emit "open" []
                 :: ((λ w, Bind (BWrite handle w.1.1 (KUser <$> w.2))) <$> ws))
              None) as He.
  { unfold emit_open. erewrite seq_eq; [|reflexivity|reflexivity].
    change (state (emit "open" [] c')) with c'.
    change (onceOpen c') with (onceOpen c). rewrite Ho.
    rewrite run_once_writes with (more := []).
    - reflexivity.
    - unfold isOpen. simpl. by rewrite Hb.
    - simpl. by rewrite Ho, app_nil_r. }
  unfold open_done. cbn [nth truthy].
  erewrite seq_eq; [|reflexivity|reflexivity]. cbn [state effects].
  erewrite seq_eq; [|reflexivity|reflexivity]. cbn [state effects].
  erewrite seq_eq; [|exact He|reflexivity].
  cbn [state effects thrown app]. by destruct callback.
Qed.

(** X15. Writes made before the port is open reach the binding once, in the
    order they were made, when [open] completes.  On a closed port without
    pending listeners any number of [_write] calls have no effect but to
    register their retries; when the binding hands over a handle, [open] is
    emitted, then the binding's [write] is called once per pending write, in
    submission order, with the handle, the data and the callback of that
    write, then the callback of [open] is called; no retry is left. *)
Theorem pre_open_writes_in_order c (ws : list (chunk * value * option fn))
    callback (handle : value) rest :
  isOpen c = false → onceOpen c = [] → handle ≠ VNull →
  let c1 := state (writes ws c) in
  effects (writes ws c) = []
  ∧ thrown (writes ws c) = None
  ∧ open_done callback (VNull :: handle :: rest) c1
    = mkResult (mk (path c) handle false (options c) (portReader c) [])
               (Emit "open" []
                  :: ((λ w, Bind (BWrite handle w.1.1 (KUser <$> w.2))) <$> ws)
                  ++ match callback with Some f => [Call f [VNull]] | None => [] end)
               None.
Proof.
  intros Hopen Honce Hh. rewrite writes_closed by done. cbn [state effects thrown].
  split; [done|]. split; [done|].
  rewrite (open_done_pending _ ws); [done|done|].
  simpl. by rewrite Honce.
Qed.

(** X16. [set] always sends the binding the same five flags.  On an open
    port the binding's [set] receives an object with exactly the properties
    [brk], [cts], [dtr], [dts] and [rts]; each has the caller's value when the
    caller's options define it and its default otherwise ([dtr] and [rts]
    true, the others false); any other property of the caller's options, the
    documented [dsr] among them, is left out.  Without options the defaults
    are sent. *)
Theorem set_flags_merged c (options : option object) callback :
  isOpen c = true →
  ∃ settings : object,
    set options callback c
    = mkResult c [Bind (BSet (fd c) settings (KSet callback))] None
    ∧ (∀ flag, flag ∈ SET_OPTIONS →
         settings !! flag = Some (flag_value (default ∅ options) flag))
    ∧ (∀ k, k ∉ SET_OPTIONS → settings !! k = None)
    ∧ settings !! "dsr" = None
    ∧ (options = None → settings = defaultSetFlags).
Proof.
  intros H. unfold set. rewrite H. cbn [negb]. eexists. split; [reflexivity|].
  assert (∀ k, k ∉ SET_OPTIONS →
            foldr (λ flag (settings : object),
                     <[flag := match default ∅ options !! flag with
                               | Some VUndefined | None => get defaultSetFlags flag
                               | Some v => v
                               end]> settings) ∅ SET_OPTIONS !! k = None) as Hout.
  { intros k Hk. unfold SET_OPTIONS in *. cbn [foldr].
    rewrite !not_elem_of_cons in Hk. destruct Hk as (? & ? & ? & ? & ? & _).
    by rewrite !lookup_insert_ne, lookup_empty by done. }
  split; [|split; [exact Hout|split]].
  - intros flag Hin. unfold SET_OPTIONS in Hin. cbn [foldr SET_OPTIONS].
    unfold flag_value.
    repeat (apply elem_of_cons in Hin as [->|Hin]);
      [..|by apply elem_of_nil in Hin];
      by rewrite ?lookup_insert_ne, lookup_insert_eq by done.
  - apply Hout. unfold SET_OPTIONS. rewrite !not_elem_of_cons.
    repeat split; try done. apply not_elem_of_nil.
  - intros ->. by vm_compute.
Qed.

Lemma mapM_chunks_two store (a b : chunk) items bytes :
  mapM (chunk_bytes store) (a :: b :: items) = Some bytes →
  Buffer_concat store (a :: b :: items) = Some (NewBuffer (List.concat bytes)).
Proof. intros H. unfold Buffer_concat. by rewrite H. Qed.

(** X17. [_writev] hands the binding the queued chunks as one Buffer, in
    order.  When every queued chunk is a Buffer, [_writev] is one [_write] of
    a Buffer whose bytes are the bytes of the chunks one after the other: on
    an open port the binding's [write] is called once, with the handle, that
    Buffer and the callback; on a port that is not open the one write is
    deferred. *)
Theorem writev_concatenates store (data : list (chunk * value)) callback c bytes :
  mapM (chunk_bytes store) (fst <$> data) = Some bytes →
  ∃ joined,
    chunk_bytes store joined = Some (List.concat bytes)
    ∧ _writev store data callback c = _write joined VNull callback c
    ∧ _writev store data callback c
      = if isOpen c
        then mkResult c [Bind (BWrite (fd c) joined (KUser <$> callback))] None
        else mkResult (mk (path c) (fd c) (opening c) (options c) (portReader c)
                          (onceOpen c ++ [RetryWrite joined VNull callback]))
                      [] None.
Proof.
  intros Hm.
  assert (∃ joined, Buffer_concat store (fst <$> data) = Some joined
                    ∧ chunk_bytes store joined = Some (List.concat bytes))
    as (joined & Hj & Hb).
  { destruct (fst <$> data) as [|a [|b items]] eqn:E.
    - injection Hm as <-. by exists (NewBuffer []).
    - exists a. simpl in Hm. unfold Buffer_concat.
      destruct (chunk_bytes store a) as [x|] eqn:Ha; [|done].
      injection Hm as <-. simpl. by rewrite app_nil_r.
    - eexists. split; [by apply mapM_chunks_two|done]. }
  exists joined. split; [done|].
  assert (_writev store data callback c = _write joined VNull callback c) as Hw.
  { unfold _writev. by rewrite Hj. }
  split; [done|]. rewrite Hw.
  destruct (isOpen c) eqn:Ho.
  - by apply _write_open.
  - by apply write_before_open_deferred.
Qed.

Lemma settle_step n s s' :
  System.step s = Some s' → System.settle (S n) s = System.settle n s'.
Proof. intros H. simpl. by rewrite H. Qed.

Lemma settle_done n s : System.stack s = [] → System.settle n s = s.
Proof. intros H. destruct n; [done|]. simpl. unfold System.step. by rewrite H. Qed.

Lemma open_idle c callback :
  isOpen c = false → opening c = false →
  open callback c
  = mkResult (mk (path c) (fd c) true (options c) (portReader c) (onceOpen c))
             [Bind (BOpen (path c) (options c) (KOpen callback))] None.
Proof. intros H1 H2. unfold open. by rewrite H1, H2. Qed.

Lemma close_open c callback :
  isOpen c = true →
  close callback c
  = mkResult (mk (path c) VNull (opening c) (options c) (portReader c) (onceOpen c))
             [Bind (BClose (fd c) (KClose callback))] None.
Proof. intros H. unfold close. by rewrite H. Qed.

(** X18. [open()] on the mock binding, through the event loop.  A closed,
    idle port whose path is registered and not locked: when [open()] returns,
    the binding has been called, the port is still closed with its guard set,
    and the completion is queued; in the next turn the port takes the handle
    the binding allocated, clears the guard, emits [open] and then calls the
    callback, and the binding has that handle in its table.  Nothing is left
    to run. *)
Theorem system_open_end_to_end (s : System.sys) callback r p :
  System.stack s = [] → System.queue s = [] →
  isOpen (System.ctl s) = false → opening (System.ctl s) = false →
  onceOpen (System.ctl s) = [] →
  Mock.getPortByPath (System.bnd s) (path (System.ctl s)) = Some (r, p) →
  Mock.lock_held p = Some false →
  let s1 := System.invoke 8 (open callback) s in
  let s2 := System.drain_queue 1 8 s1 in
  System.stack s1 = []
  ∧ isOpen (System.ctl s1) = false ∧ opening (System.ctl s1) = true
  ∧ System.trace s1
    = System.trace s
        ++ [System.Bound (BOpen (path (System.ctl s)) (options (System.ctl s))
                                (KOpen callback))]
  ∧ System.queue s1
    = [(Some (KOpen callback), [VNull; VNum (Mock.nextFd (System.bnd s))])]
  ∧ System.stack s2 = [] ∧ System.queue s2 = []
  ∧ fd (System.ctl s2) = VNum (Mock.nextFd (System.bnd s))
  ∧ opening (System.ctl s2) = false
  ∧ System.trace s2
    = System.trace s1
        ++ System.Emitted "open" []
        :: match callback with Some f => [System.Called f [VNull]] | None => [] end
  ∧ is_Some (Mock.getPortByFD (System.bnd s2) (fd (System.ctl s2))).
Proof.
  intros Hst Hq Hopen Hopening Honce Hg Hl s1 s2.
  destruct s as [c m st q tr].
  cbn [System.stack System.queue System.ctl System.bnd System.trace] in *.
  subst st q.
  pose proof Hg as [Hp Ho]%getPortByPath_Some.
  assert (r < length (Mock.objs m))%nat by by eapply lookup_lt_Some.
  pose proof (open_unlocked m (path c) (options c) (Some (KOpen callback)) r p Hg Hl)
    as Hmock.
  match type of Hmock with _ = Mock.Returned ?x _ _ => set (m1 := x) in * end.
  set (c1 := mk (path c) (fd c) true (options c) (portReader c) (onceOpen c)).
  assert (s1
          = System.mkSys c1 m1 []
              [(Some (KOpen callback), [VNull; VNum (Mock.nextFd m)])]
              (tr ++ [System.Bound (BOpen (path c) (options c) (KOpen callback))]))
    as Hs1.
  { unfold s1, System.invoke, System.enter. cbn [System.ctl].
    rewrite open_idle by done. cbn [state effects thrown fmap list_fmap app].
    erewrite settle_step;
      [|unfold System.step; cbn [System.stack System.dispatch System.bnd];
        rewrite Hmock; reflexivity].
    by rewrite settle_done. }
  set (c2 := mk (path c) (VNum (Mock.nextFd m)) false (options c) (portReader c) []).
  assert (s2
          = System.mkSys c2 m1 [] []
              ((tr ++ [System.Bound (BOpen (path c) (options c) (KOpen callback))])
                 ++ System.Emitted "open" []
                 :: match callback with
                    | Some f => [System.Called f [VNull]]
                    | None => []
                    end)) as Hs2.
  { unfold s2. rewrite Hs1.
    cbn [System.drain_queue System.queue System.tick System.stack].
    erewrite settle_step;
      [|unfold System.step, System.enter;
        cbn [System.stack System.ctl apply];
        rewrite (open_done_pending c1 [] callback (VNum (Mock.nextFd m)) [])
          by done; reflexivity].
    cbn [state effects thrown fmap list_fmap app System.bnd System.queue System.trace].
    erewrite settle_step; [|reflexivity].
    destruct callback as [f|].
    - erewrite settle_step; [|reflexivity].
      rewrite settle_done by done. unfold System.note. simpl.
      by rewrite <- !app_assoc.
    - rewrite settle_done by done. by unfold System.note. }
  clearbody s1 s2. subst s1 s2.
  cbn [System.stack System.queue System.ctl System.trace System.bnd].
  repeat (split; [done|]).
  apply (mk_is_Some _ (r, Mock.set_port_fds (Mock.set_openOpt p (options c))
                            (Mock.port_fds p ++ [Mock.nextFd m]))).
  apply getPortByFD_Some. exists (Mock.nextFd m). subst m1 c2. simpl.
  split; [done|]. split; [apply lookup_insert_eq|by apply list_lookup_insert_eq].
Qed.

Lemma close_done_error c callback (err : value) :
  truthy err = true →
  close_done callback [err] c = mkResult c [delivered err callback] None.
Proof. intros H. unfold close_done. simpl. rewrite H. apply _error_delivers. Qed.

Lemma close_done_ok c callback :
  close_done callback [VNull] c
  = mkResult c (Emit "close" []
                  :: match callback with Some f => [Call f [VNull]] | None => [] end)
             None.
Proof. by destruct callback. Qed.

(** X19. [close()] on the mock binding, through the event loop.  A port that
    holds handle [n]: when [close()] returns, the port is closed, the binding
    has been called with [n] and the completion is queued.  If the binding
    had an entry for [n], the handle is gone from its table at once, and in
    the next turn [close] is emitted and then the callback is called.  If it
    had none, the next turn delivers the error "n fd is already closed" to
    the callback, or emits it as [error]; the port stays closed either
    way. *)
Theorem system_close_end_to_end (s : System.sys) callback n :
  System.stack s = [] → System.queue s = [] →
  fd (System.ctl s) = VNum n →
  let s1 := System.invoke 8 (close callback) s in
  let s2 := System.drain_queue 1 8 s1 in
  System.stack s1 = []
  ∧ isOpen (System.ctl s1) = false
  ∧ System.trace s1
    = System.trace s ++ [System.Bound (BClose (VNum n) (KClose callback))]
  ∧ Mock.getPortByFD (System.bnd s1) (VNum n) = None
  ∧ System.stack s2 = [] ∧ System.queue s2 = []
  ∧ System.ctl s2 = System.ctl s1 ∧ System.bnd s2 = System.bnd s1
  ∧ System.trace s2
    = System.trace s1
        ++ match Mock.getPortByFD (System.bnd s) (VNum n) with
           | Some _ =>
               System.Emitted "close" []
               :: match callback with
                  | Some f => [System.Called f [VNull]]
                  | None => []
                  end
           | None =>
               match callback with
               | Some f =>
                   [System.Called f [Error (pretty n +:+ " fd is already closed")]]
               | None =>
                   [System.Emitted "error"
                      [Error (pretty n +:+ " fd is already closed")]]
               end
           end.
Proof.
  intros Hst Hq Hfd s1 s2.
  destruct s as [c m st q tr].
  cbn [System.stack System.queue System.ctl System.bnd System.trace] in *.
  subst st q.
  assert (isOpen c = true) as Hopen by (apply isOpen_fd; by rewrite Hfd).
  set (c1 := mk (path c) VNull (opening c) (options c) (portReader c) (onceOpen c)).
  destruct (Mock.getPortByFD m (VNum n)) as [[r p]|] eqn:Hg.
  - set (m1 := Mock.mkState (Mock.nextFd m) (delete n (Mock.fds m)) (Mock.ports m)
                 (<[r := Mock.set_port_fds p
                           (filter (λ item, item ≠ n) (Mock.port_fds p))]>
                    (Mock.objs m)) (Mock.bufs m)).
    assert (s1 = System.mkSys c1 m1 [] [(Some (KClose callback), [VNull])]
                   (tr ++ [System.Bound (BClose (VNum n) (KClose callback))]))
      as Hs1.
    { unfold s1, System.invoke, System.enter. cbn [System.ctl].
      rewrite close_open by done. rewrite Hfd.
      cbn [state effects thrown fmap list_fmap app].
      erewrite settle_step;
        [|unfold System.step; cbn [System.stack System.dispatch System.bnd];
          unfold Mock.close; rewrite Hg; reflexivity].
      by rewrite settle_done. }
    assert (s2 = System.mkSys c1 m1 [] []
                   ((tr ++ [System.Bound (BClose (VNum n) (KClose callback))])
                      ++ System.Emitted "close" []
                      :: match callback with
                         | Some f => [System.Called f [VNull]]
                         | None => []
                         end)) as Hs2.
    { unfold s2. rewrite Hs1.
      cbn [System.drain_queue System.queue System.tick System.stack].
      erewrite settle_step;
        [|unfold System.step, System.enter;
          cbn [System.stack System.ctl apply];
          rewrite close_done_ok; reflexivity].
      cbn [state effects thrown fmap list_fmap app System.bnd System.queue
             System.trace].
      erewrite settle_step; [|reflexivity].
      destruct callback as [f|].
      - erewrite settle_step; [|reflexivity].
        rewrite settle_done by done. unfold System.note. simpl.
        by rewrite <- !app_assoc.
      - rewrite settle_done by done. by unfold System.note. }
    clearbody s1 s2. subst s1 s2.
    cbn [System.stack System.queue System.ctl System.trace System.bnd].
    repeat (split; [done|]). split; [|done].
    unfold Mock.getPortByFD, m1. simpl. by rewrite lookup_delete_eq.
  - set (err := Error (pretty n +:+ " fd is already closed")).
    assert (s1 = System.mkSys c1 m [] [(Some (KClose callback), [err])]
                   (tr ++ [System.Bound (BClose (VNum n) (KClose callback))]))
      as Hs1.
    { unfold s1, System.invoke, System.enter. cbn [System.ctl].
      rewrite close_open by done. rewrite Hfd.
      cbn [state effects thrown fmap list_fmap app].
      erewrite settle_step;
        [|unfold System.step; cbn [System.stack System.dispatch System.bnd];
          unfold Mock.close; rewrite Hg; reflexivity].
      by rewrite settle_done. }
    assert (s2 = System.mkSys c1 m [] []
                   ((tr ++ [System.Bound (BClose (VNum n) (KClose callback))])
                      ++ match callback with
                         | Some f => [System.Called f [err]]
                         | None => [System.Emitted "error" [err]]
                         end)) as Hs2.
    { unfold s2. rewrite Hs1.
      cbn [System.drain_queue System.queue System.tick System.stack].
      erewrite settle_step;
        [|unfold System.step, System.enter;
          cbn [System.stack System.ctl apply];
          rewrite (close_done_error c1 callback err) by done; reflexivity].
      cbn [state effects thrown fmap list_fmap app System.bnd System.queue
             System.trace].
      destruct callback as [f|].
      - erewrite settle_step; [|reflexivity].
        by rewrite settle_done.
      - erewrite settle_step; [|reflexivity].
        by rewrite settle_done. }
    clearbody s1 s2. subst s1 s2.
    cbn [System.stack System.queue System.ctl System.trace System.bnd].
    repeat (split; [done|]). done.
Qed.

End ControllerMore.

(** ** The further properties at concrete ports *)

Section MoreExamples.

Import SerialPort Scenario.

Lemma wf_opened_locked : Mock.wf opened_locked.
Proof.
  eapply (wf_open registered exists_ locking None); [apply wf_registered|].
  reflexivity.
Qed.

Lemma mock_closed_handle_stays_invalid_witness :
  Mock.wf opened_locked
  ∧ is_Some (Mock.getPortByFD opened_locked (VNum 0))
  ∧ ∃ m1,
      Mock.close opened_locked (VNum 0) None = Mock.Returned m1 [] [(None, [VNull])]
      ∧ Mock.getPortByFD m1 (VNum 0) = None
      ∧ Mock.rejected m1 None (Mock.close m1 (VNum 0) None).
Proof.
  assert (is_Some (Mock.getPortByFD opened_locked (VNum 0))) as Hs
    by (vm_compute; eauto).
  split; [exact wf_opened_locked|]. split; [exact Hs|].
  destruct (mock_closed_handle_stays_invalid opened_locked 0 None
              wf_opened_locked Hs) as (m1 & Hc & Hlater).
  exists m1. split; [exact Hc|].
  destruct (Hlater m1 (Mock.ev_here m1)) as [Hnone Hrej].
  split; [exact Hnone|]. exact (proj1 (Hrej 0%nat ∅ None)).
Defined.

Lemma mock_open_close_roundtrip_witness :
  Mock.wf registered
  ∧ Mock.getPortByPath registered exists_ = Some (0%nat, entry_fresh)
  ∧ Mock.lock_held entry_fresh = Some false
  ∧ ∃ m1 m2,
      Mock.open registered exists_ locking None
      = Mock.Returned m1 [] [(None, [VNull; VNum 0])]
      ∧ Mock.close m1 (VNum 0) None = Mock.Returned m2 [] [(None, [VNull])]
      ∧ Mock.fds m2 = Mock.fds registered
      ∧ Mock.nextFd m2 = 1.
Proof.
  split; [exact wf_registered|]. split; [vm_compute; reflexivity|].
  split; [reflexivity|].
  destruct (mock_open_close_roundtrip registered exists_ locking None None
              0%nat entry_fresh wf_registered ltac:(vm_compute; reflexivity)
              ltac:(reflexivity))
    as (m1 & m2 & Ho & Hc & Hf & _ & Hn & _).
  exists m1, m2. split; [exact Ho|]. split; [exact Hc|]. split; [exact Hf|exact Hn].
Defined.

Lemma mock_locked_until_released_witness :
  Mock.wf opened_locked
  ∧ Mock.getPortByPath opened_locked exists_ = Some (0%nat, entry_locked)
  ∧ Mock.port_fds entry_locked = [0]
  ∧ Mock.recorded_lock entry_locked = true
  ∧ Mock.open opened_locked exists_ noLock (Some (user 2))
    = Mock.Returned opened_locked
        [(user 2, [Error "port is locked cannot open"])] []
  ∧ ∃ m1 m2,
      Mock.close opened_locked (VNum 0) None = Mock.Returned m1 [] [(None, [VNull])]
      ∧ Mock.open m1 exists_ noLock None
        = Mock.Returned m2 [] [(None, [VNull; VNum 1])].
Proof.
  split; [exact wf_opened_locked|]. split; [vm_compute; reflexivity|].
  split; [reflexivity|]. split; [reflexivity|].
  exact (mock_locked_until_released opened_locked exists_ noLock None None (user 2)
           0%nat entry_locked 0 wf_opened_locked ltac:(vm_compute; reflexivity)
           ltac:(reflexivity) ltac:(reflexivity)).
Defined.

Lemma mock_lock_outlives_handle_witness :
  Mock.wf opened_unlocked
  ∧ Mock.getPortByPath opened_unlocked exists_ = Some (0%nat, entry_unlocked)
  ∧ 0 ∈ Mock.port_fds entry_unlocked
  ∧ Mock.recorded_lock entry_unlocked = false
  ∧ truthy (get locking "lock") = true
  ∧ ∃ m1 m2 p2,
      Mock.open opened_unlocked exists_ locking None
      = Mock.Returned m1 [] [(None, [VNull; VNum 1])]
      ∧ Mock.close m1 (VNum 1) None = Mock.Returned m2 [] [(None, [VNull])]
      ∧ Mock.getPortByPath m2 exists_ = Some (0%nat, p2)
      ∧ Mock.port_fds p2 = [0]
      ∧ ∀ opt' f,
          Mock.open m2 exists_ opt' (Some f)
          = Mock.Returned m2 [(f, [Error "port is locked cannot open"])] [].
Proof.
  assert (0 ∈ Mock.port_fds entry_unlocked) as Hin
    by (apply list_elem_of_singleton; reflexivity).
  split; [exact wf_opened_unlocked|]. split; [vm_compute; reflexivity|].
  split; [exact Hin|]. split; [reflexivity|]. split; [reflexivity|].
  exact (mock_lock_outlives_handle opened_unlocked exists_ locking None None
           0%nat entry_unlocked 0 wf_opened_unlocked
           ltac:(vm_compute; reflexivity) Hin ltac:(reflexivity)
           ltac:(reflexivity)).
Defined.

Lemma mock_createPort_fresh_witness :
  Mock.wf opened_locked
  ∧ Mock.plain opened_locked
  ∧ exists_ ≠ "__proto__"
  ∧ Mock.getPortByFD (Mock.createPort opened_locked exists_) (VNum 0)
    = Mock.getPortByFD opened_locked (VNum 0)
  ∧ ∃ m',
      Mock.open (Mock.createPort opened_locked exists_) exists_ locking None
      = Mock.Returned m' [] [(None, [VNull; VNum 1])].
Proof.
  assert (Mock.plain opened_locked) as Hpl by reflexivity.
  assert (exists_ ≠ "__proto__") as Hne by discriminate.
  split; [exact wf_opened_locked|]. split; [exact Hpl|]. split; [exact Hne|].
  destruct (mock_createPort_fresh opened_locked exists_ wf_opened_locked Hpl Hne)
    as (_ & _ & Hfd & Hopen).
  split; [exact (Hfd (VNum 0))|exact (Hopen locking None)].
Defined.

Lemma reachable_registered : Mock.reachable registered.
Proof. apply Mock.reach_createPort, Mock.reach_new. Qed.

Lemma mock_poller_notified_witness :
  Mock.getPortByFD opened_locked (VNum 0) = Some (0%nat, entry_locked)
  ∧ Mock.ports opened_locked !! exists_ = Some 0%nat
  ∧ ∃ m1 m2 m3 m4,
      Mock.Poller opened_locked (VNum 0) (user 1) = Mock.Returned m1 [] []
      ∧ Mock.emitData m1 exists_ [x01] = Mock.Returned m2 [(user 1, [])] []
      ∧ Mock.Poller m2 (VNum 0) (user 2) = Mock.Returned m3 [] []
      ∧ Mock.emitData m3 exists_ [x01] = Mock.Returned m4 [(user 2, [])] [].
Proof.
  split; [vm_compute; reflexivity|]. split; [vm_compute; reflexivity|].
  exact (proj1 (mock_poller_notified opened_locked (VNum 0) exists_ 0%nat
                  entry_locked (user 1) (user 2) [x01]
                  ltac:(vm_compute; reflexivity) ltac:(vm_compute; reflexivity))).
Defined.

Lemma mock_disconnect_latest_opener_witness :
  Mock.getPortByPath registered exists_ = Some (0%nat, entry_fresh)
  ∧ Mock.lock_held entry_fresh = Some false
  ∧ ∃ m1,
      Mock.open registered exists_ watched None
      = Mock.Returned m1 [] [(None, [VNull; VNum 0])]
      ∧ Mock.disconnect as_function m1 exists_
        = Mock.Returned m1 [(user 7, [Error "disconnected"])] [].
Proof.
  split; [vm_compute; reflexivity|]. split; [reflexivity|].
  exact (proj1 (mock_disconnect_latest_opener as_function registered exists_
                  0%nat entry_fresh watched None
                  ltac:(vm_compute; reflexivity) ltac:(reflexivity))).
Defined.

Lemma port_lifecycle_witness :
  isOpen (port_on exists_) = false
  ∧ opening (port_on exists_) = false
  ∧ onceOpen (port_on exists_) = []
  ∧ VNum 0 ≠ VNull
  ∧ state (close_done (Some 3%nat) [VNull]
             (state (close (Some 3%nat)
                (state (open_done (Some 3%nat) [VNull; VNum 0]
                   (state (open (Some 3%nat) (port_on exists_))))))))
    = port_on exists_.
Proof.
  assert (VNum 0 ≠ VNull) as Hne by discriminate.
  split; [reflexivity|]. split; [reflexivity|]. split; [reflexivity|].
  split; [exact Hne|].
  exact (proj2 (proj2 (proj2 (proj2 (proj2 (proj2 (proj2 (proj2 (proj2 (proj2
           (port_lifecycle (port_on exists_) (Some 3%nat) (VNum 0) []
              ltac:(reflexivity) ltac:(reflexivity) ltac:(reflexivity) Hne))))))))))).
Defined.

Lemma pre_open_writes_in_order_witness :
  isOpen (port_on exists_) = false
  ∧ onceOpen (port_on exists_) = []
  ∧ VNum 0 ≠ VNull
  ∧ effects
      (open_done None [VNull; VNum 0]
         (state (writes [(IsBuffer 0, VUndefined, Some 1%nat);
                         (NewBuffer [x02], VUndefined, None)]
                        (port_on exists_))))
    = [Emit "open" [];
       Bind (BWrite (VNum 0) (IsBuffer 0) (Some (KUser 1%nat)));
       Bind (BWrite (VNum 0) (NewBuffer [x02]) None)].
Proof.
  assert (VNum 0 ≠ VNull) as Hne by discriminate.
  split; [reflexivity|]. split; [reflexivity|]. split; [exact Hne|].
  destruct (pre_open_writes_in_order (port_on exists_)
              [(IsBuffer 0, VUndefined, Some 1%nat);
               (NewBuffer [x02], VUndefined, None)]
              None (VNum 0) [] ltac:(reflexivity) ltac:(reflexivity) Hne)
    as (_ & _ & H).
  rewrite H. reflexivity.
Defined.

Lemma set_flags_merged_witness :
  isOpen (port_open exists_ 0) = true
  ∧ ∃ settings : object,
      set (Some {[ "dtr" := VBool false; "dsr" := VBool true ]}) None
          (port_open exists_ 0)
      = mkResult (port_open exists_ 0)
          [Bind (BSet (VNum 0) settings (KSet None))] None
      ∧ settings !! "dtr" = Some (VBool false)
      ∧ settings !! "rts" = Some (VBool true)
      ∧ settings !! "dsr" = None.
Proof.
  split; [reflexivity|].
  destruct (set_flags_merged (port_open exists_ 0)
              (Some {[ "dtr" := VBool false; "dsr" := VBool true ]}) None
              ltac:(reflexivity)) as (settings & Hs & Hin & _ & Hdsr & _).
  exists settings. split; [exact Hs|].
  split; [rewrite Hin; [reflexivity|]; unfold SET_OPTIONS;
          rewrite !elem_of_cons; auto|].
  split; [rewrite Hin; [reflexivity|]; unfold SET_OPTIONS;
          rewrite !elem_of_cons; auto 10|exact Hdsr].
Defined.

Lemma writev_concatenates_witness :
  mapM (chunk_bytes [[x01; x02]]) (fst <$> [(IsBuffer 0, VNull); (NewBuffer [x03], VNull)])
  = Some [[x01; x02]; [x03]]
  ∧ ∃ joined,
      chunk_bytes [[x01; x02]] joined = Some [x01; x02; x03]
      ∧ _writev [[x01; x02]] [(IsBuffer 0, VNull); (NewBuffer [x03], VNull)]
                (Some 3%nat) (port_open exists_ 0)
        = mkResult (port_open exists_ 0)
            [Bind (BWrite (VNum 0) joined (Some (KUser 3%nat)))] None.
Proof.
  split; [reflexivity|].
  destruct (writev_concatenates [[x01; x02]]
              [(IsBuffer 0, VNull); (NewBuffer [x03], VNull)] (Some 3%nat)
              (port_open exists_ 0) [[x01; x02]; [x03]] ltac:(reflexivity))
    as (joined & Hb & _ & Hw).
  exists joined. split; [exact Hb|exact Hw].
Defined.

Lemma system_open_end_to_end_witness :
  System.stack (system_on exists_) = []
  ∧ System.queue (system_on exists_) = []
  ∧ isOpen (System.ctl (system_on exists_)) = false
  ∧ opening (System.ctl (system_on exists_)) = false
  ∧ onceOpen (System.ctl (system_on exists_)) = []
  ∧ Mock.getPortByPath (System.bnd (system_on exists_))
      (path (System.ctl (system_on exists_))) = Some (0%nat, entry_fresh)
  ∧ Mock.lock_held entry_fresh = Some false
  ∧ fd (System.ctl
          (System.drain_queue 1 8
             (System.invoke 8 (open (Some 3%nat)) (system_on exists_))))
    = VNum 0.
Proof.
  repeat (split; [vm_compute; reflexivity|]).
  destruct (system_open_end_to_end (system_on exists_) (Some 3%nat) 0%nat entry_fresh
              ltac:(reflexivity) ltac:(reflexivity) ltac:(reflexivity)
              ltac:(reflexivity) ltac:(reflexivity)
              ltac:(vm_compute; reflexivity) ltac:(reflexivity))
    as (_ & _ & _ & _ & _ & _ & _ & H & _).
  exact H.
Defined.

Lemma system_close_end_to_end_witness :
  System.stack system_open = []
  ∧ System.queue system_open = []
  ∧ fd (System.ctl system_open) = VNum 0
  ∧ System.trace
      (System.drain_queue 1 8 (System.invoke 8 (close (Some 3%nat)) system_open))
    = System.trace (System.invoke 8 (close (Some 3%nat)) system_open)
        ++ [System.Emitted "close" []; System.Called 3%nat [VNull]].
Proof.
  repeat (split; [vm_compute; reflexivity|]).
  destruct (system_close_end_to_end system_open (Some 3%nat) 0
              ltac:(vm_compute; reflexivity) ltac:(vm_compute; reflexivity)
              ltac:(vm_compute; reflexivity))
    as (_ & _ & _ & _ & _ & _ & _ & _ & H).
  rewrite H. vm_compute. reflexivity.
Defined.

End MoreExamples.
